(** * Evaluation engine of the EdTech service: a shallow embedding

    The development follows [python_models/unified_service.py]: the helpers
    [cosine_similarity], [get_embeddings_batch] and [extract_answer_letter],
    and the request handler [evaluate_student] (the "smart evaluator").

    Numbers are IEEE-754 binary64 values, as Python floats are; JSON
    integers are taken at their binary64 value, which is exact up to 2^53.
    Strings are sequences of Unicode code points, as Python [str] is. *)

From Stdlib Require Import ZArith NArith Lia Bool List.
From Stdlib Require Import Floats.
From Stdlib Require Import Ascii String.
From stdpp Require Import base option list gmap.
Import ListNotations.

Set Warnings "-inexact-float".
Local Open Scope Z_scope.

(** ** Python numbers *)

Module PyNum.

Definition num := float.

(** [a >= b] on floats; false as soon as one side is NaN. *)
Definition ge (a b : num) : bool := PrimFloat.leb b a.
Definition lt (a b : num) : bool := PrimFloat.ltb a b.

(** Truth value of a float: everything but +0.0 and -0.0. *)
Definition truthy (x : num) : bool := negb (PrimFloat.eqb x 0%float).

Definition is_nan (x : num) : bool := negb (PrimFloat.eqb x x).

(** Exact conversion of a non-negative machine-size integer
    ([len(...)] results, small constants). *)
Definition of_nat (n : nat) : num :=
  SF2Prim (binary_normalize prec emax (Z.of_nat n) 0 false).

(** Nearest integer to [n/d], ties to even ([n >= 0], [d > 0]). *)
Definition div_half_even (n d : Z) : Z :=
  let q := n / d in
  let r := n mod d in
  match 2 * r ?= d with
  | Lt => q
  | Gt => q + 1
  | Eq => if Z.even q then q else q + 1
  end.

(** [round(x, ndigits)] for a float [x] and [ndigits >= 0]: the decimal
    with [ndigits] places closest to the exact value of [x] (ties to
    even), converted back to the nearest float.  Infinities, NaN and
    zeros are returned unchanged; the sign of a result that rounds to
    zero is kept. *)
Definition round (ndigits : Z) (x : num) : num :=
  match Prim2SF x with
  | S754_finite s m e =>
      let scale := 10 ^ ndigits in
      let n := if 0 <=? e
               then Zpos m * 2 ^ e * scale
               else div_half_even (Zpos m * scale) (2 ^ (- e)) in
      match n with
      | Zpos p =>
          SF2Prim (SFdiv prec emax (S754_finite s p 0)
                                   (S754_finite false (Z.to_pos scale) 0))
      | _ => if s then PrimFloat.neg_zero else PrimFloat.zero
      end
  | _ => x
  end.

(** [sum(xs)]: accumulation from the integer 0, left to right. *)
Definition sum (xs : list num) : num :=
  fold_left PrimFloat.add xs 0%float.

(** The exception classes that occur in the modelled code. *)
Inductive exception := ValueError | TypeError | OverflowError.

(** [int(x)] for a float: truncation toward zero; NaN and the
    infinities are not convertible. *)
Definition trunc (x : num) : exception + Z :=
  match Prim2SF x with
  | S754_nan => inl ValueError
  | S754_infinity _ => inl OverflowError
  | S754_zero _ => inr 0
  | S754_finite s m e =>
      let a := if 0 <=? e then Zpos m * 2 ^ e else Zpos m / 2 ^ (- e) in
      inr (if s then - a else a)
  end.

End PyNum.

(** ** Python strings *)

Module PyStr.

(** A string is its sequence of code points. *)
Definition char := N.
Definition pystr := list char.

Definition lit (s : string) : pystr :=
  List.map N_of_ascii (list_ascii_of_string s).

Definition eqb (a b : pystr) : bool := bool_decide (a = b).

Local Open Scope N_scope.

(** Whitespace as [str.strip], [str.split] and the regex class [\s]
    see it (the complete Unicode list). *)
Definition isspace (c : char) : bool :=
  ((9 <=? c) && (c <=? 13)) || ((28 <=? c) && (c <=? 32))
  || (c =? 133) || (c =? 160) || (c =? 5760)
  || ((8192 <=? c) && (c <=? 8202))
  || (c =? 8232) || (c =? 8233) || (c =? 8239) || (c =? 8287)
  || (c =? 12288).

Definition is_ascii_upper (c : char) : bool := (65 <=? c) && (c <=? 90).
Definition is_ascii_lower (c : char) : bool := (97 <=? c) && (c <=? 122).
(** The regex class [[a-zA-Z]]. *)
Definition is_ascii_letter (c : char) : bool :=
  is_ascii_upper c || is_ascii_lower c.

(** [c.isalpha()] and [c.lower()] read the Unicode character database.
    The tables are reproduced for Basic Latin (U+0000..U+007F) and for
    U+0130 (LATIN CAPITAL LETTER I WITH DOT ABOVE) and U+0307 (COMBINING
    DOT ABOVE); statements that depend on the tables are restricted to
    these code points. *)
Definition U_0130 : char := 304.
Definition U_0307 : char := 775.

Definition isalpha_char (c : char) : bool :=
  is_ascii_letter c || (c =? U_0130).

Definition lower_char (c : char) : pystr :=
  if is_ascii_upper c then [c + 32]
  else if c =? U_0130 then [105; U_0307]
  else [c].

Definition lower (s : pystr) : pystr := flat_map lower_char s.

(** [s.isalpha()]: non-empty and every character alphabetic. *)
Definition isalpha (s : pystr) : bool :=
  match s with
  | [] => false
  | _ => forallb isalpha_char s
  end.

Fixpoint lstrip (s : pystr) : pystr :=
  match s with
  | c :: r => if isspace c then lstrip r else s
  | [] => []
  end.

Definition strip (s : pystr) : pystr := rev (lstrip (rev (lstrip s))).

(** [s.split()]: the maximal runs of non-whitespace characters. *)
Fixpoint split_aux (cur : pystr) (s : pystr) : list pystr :=
  match s with
  | [] => match cur with [] => [] | _ => [rev cur] end
  | c :: r =>
      if isspace c
      then match cur with [] => split_aux [] r | _ => rev cur :: split_aux [] r end
      else split_aux (c :: cur) r
  end.

Definition split (s : pystr) : list pystr := split_aux [] s.

(** [needle in s] for strings. *)
Fixpoint is_prefix (p s : pystr) : bool :=
  match p, s with
  | [], _ => true
  | a :: p', b :: s' => (a =? b) && is_prefix p' s'
  | _ :: _, [] => false
  end.


(** Truth value of a string. *)
Definition truthy (s : pystr) : bool :=
  match s with [] => false | _ => true end.

Definition is_ascii (s : pystr) : Prop := Forall (fun c => c < 128) s.

End PyStr.

Import PyStr.

(** ** The answer normalizer: [extract_answer_letter] *)

(** [s[i]] as a one-character string; the uses below are guarded by a
    length test, so the out-of-range case (an IndexError) never arises. *)
Definition at_index (s : pystr) (i : nat) : pystr :=
  match s !! i with
  | Some c => [c]
  | None => []
  end.

Definition close_paren : pystr := lit ")".
Definition full_stop : pystr := lit ".".
Definition colon : pystr := lit ":".

Definition in_list (x : pystr) (l : list pystr) : bool :=
  existsb (PyStr.eqb x) l.

(** [re.match(r'^([a-zA-Z])[\)\.\:\s]', s)]: the captured group, if the
    pattern matches at the start of [s]. *)
Definition re_match_letter_sep (s : pystr) : option pystr :=
  match s with
  | c0 :: c1 :: _ =>
      if is_ascii_letter c0
         && (in_list [c1] [close_paren; full_stop; colon] || isspace c1)
      then Some [c0]
      else None
  | _ => None
  end.

Definition extract_answer_letter (answer : pystr) : pystr :=
  if negb (truthy answer) then []
  else
    let answer := strip answer in
    if (length answer =? 1)%nat && isalpha answer then
      lower answer
    else if (2 <=? length answer)%nat && isalpha (at_index answer 0)
            && in_list (at_index answer 1) [close_paren; full_stop; colon] then
      lower (at_index answer 0)
    else
      match re_match_letter_sep answer with
      | Some group1 => lower group1
      | None =>
          if truthy answer && isalpha (at_index answer 0) then
            lower (at_index answer 0)
          else
            lower answer
      end.

(** ** Embeddings: [cosine_similarity] and [get_embeddings_batch] *)

Import PyNum.

Definition embedding := list num.

(** [np.dot(a, b)] on one-dimensional arrays: a ValueError when the shapes
    differ.  The products are accumulated from left to right; NumPy leaves
    the order of the additions to the BLAS kernel, which matters only when
    a partial sum is rounded. *)
Definition np_dot (a b : embedding) : exception + num :=
  if (length a =? length b)%nat
  then inr (fold_left (fun acc xy => PrimFloat.add acc (PrimFloat.mul xy.1 xy.2))
                      (zip a b) 0%float)
  else inl ValueError.

(** [np.linalg.norm(a)]: the square root of [a.dot(a)]. *)
Definition np_norm (a : embedding) : num :=
  PrimFloat.sqrt
    (fold_left (fun acc x => PrimFloat.add acc (PrimFloat.mul x x)) a 0%float).

Definition cosine_similarity (vec1 vec2 : embedding) : exception + num :=
  let denom := PrimFloat.mul (np_norm vec1) (np_norm vec2) in
  if PrimFloat.eqb denom 0%float then inr 0%float
  else
    match np_dot vec1 vec2 with
    | inr d => inr (PrimFloat.div d denom)
    | inl e => inl e
    end.

(** What one call of [client.embeddings.create] does: it raises (timeout,
    network, API error) or it returns the list [response.data]. *)
Inductive provider_outcome :=
| ProviderRaises
| ProviderReturns (data : list embedding).

Definition provider := list pystr -> Z -> provider_outcome.

Definition get_embeddings_batch (create : provider) (texts : list pystr)
    (timeout : Z) : list (option embedding) :=
  match create texts timeout with
  | ProviderReturns data => List.map Some data
  | ProviderRaises => replicate (length texts) None
  end.

(** The variant of [mock_test/eval_engine.py], which has no zero guard. *)
Module MockTest.
Definition cosine_similarity (vec1 vec2 : embedding) : exception + num :=
  match np_dot vec1 vec2 with
  | inr d => inr (PrimFloat.div d (PrimFloat.mul (np_norm vec1) (np_norm vec2)))
  | inl e => inl e
  end.
End MockTest.

(** ** Data model of the smart evaluator *)

(** A question of a paper, as the keys [evaluate_student] reads; [None] is
    an absent key.  [q_id] stands for an index the paper generator may have
    stored in the question object. *)
Record Question := {
  q_question : option pystr;
  q_type : option pystr;
  q_answer : option pystr;
  q_correct_answer : option pystr;
  q_marks : option num;
  q_id : option Z
}.

Record Paper := {
  p_title : option pystr;
  p_questions : list Question;
  p_total_marks : option num
}.

(** JSON values, as far as [int(...)] tells them apart. *)
Inductive json :=
| JNull
| JBool (b : bool)
| JInt (z : Z)
| JFloat (f : num)
| JStr (s : pystr)
| JArray
| JObject.

Record Answer := {
  a_q_index : option json;
  a_student_answer : option pystr
}.

(** The request body.  [r_paper = None] stands for a missing, null or
    empty paper object, which Python's [not paper] does not tell apart. *)
Record Request := {
  r_student_id : option pystr;
  r_paper_id : option pystr;
  r_paper : option Paper;
  r_answers : list Answer
}.

Record Detail := {
  d_q_index : Z;
  d_question : option pystr;
  d_type : option pystr;
  d_marks : num;
  d_student_answer : pystr;
  d_correct_answer : pystr;
  d_score_awarded : num;
  d_feedback : pystr;
  d_similarity : option num
}.

Record EvaluationRecord := {
  eval_id : pystr;
  student_id : pystr;
  paper_id : option pystr;
  paper_title : pystr;
  timestamp : pystr;
  total_marks : num;
  total_score : num;
  percentage : num;
  details : list Detail
}.

Inductive error_body :=
| PaperIdNotFound          (* "paper_id not found" *)
| NoPaperProvided          (* "No paper provided or found." *)
| PaperHasNoQuestions      (* "Paper has no questions" *)
| NoAnswersProvided        (* "No answers provided" *)
| DatabaseConnectionError  (* "Database connection error: ..." *)
| EvaluationFailed (e : exception).

(** The value handed to [jsonify] together with the status code; JSON
    serialisation itself is outside the model. *)
Inductive response :=
| Success (id : pystr) (evaluation : EvaluationRecord)   (* 200 *)
| Failure (status : Z) (body : error_body).

(** ** The document store *)

(** Outcome of one attempt of a MongoDB operation. *)
Inductive db_outcome (A : Type) :=
| DbReturns (a : A)
| DbConnectionError     (* AutoReconnect, ServerSelectionTimeoutError, NetworkTimeout *)
| DbOtherError.
Arguments DbReturns {A} a.
Arguments DbConnectionError {A}.
Arguments DbOtherError {A}.

(** [mongo_operation_with_retry(operation, max_retries)]: the operation is
    tried up to [max_retries] times; a connection error on the last
    attempt and any other error are raised.  With no attempt at all the
    function falls off its loop and returns [None]. *)
Fixpoint retry_loop {A} (operation : nat -> db_outcome A)
    (attempt remaining : nat) : unit + option A :=
  match remaining with
  | O => inr None
  | S remaining' =>
      match operation attempt with
      | DbReturns a => inr (Some a)
      | DbConnectionError =>
          match remaining' with
          | O => inl tt
          | S _ => retry_loop operation (S attempt) remaining'
          end
      | DbOtherError => inl tt
      end
  end.

Definition mongo_operation_with_retry {A} (operation : nat -> db_outcome A)
    (max_retries : nat) : unit + option A :=
  retry_loop operation 0 max_retries.

(** The collaborators of one request.  A collection is [None] when the
    service started without a MongoDB connection; otherwise it tells the
    outcome of each attempt of the operation issued on it. *)
Record Env := {
  papers_collection : option (pystr -> nat -> db_outcome (option Paper));
  evaluations_collection : option (EvaluationRecord -> nat -> db_outcome unit);
  embeddings_create : provider;
  uuid4 : pystr;
  now : pystr
}.

(** ** [evaluate_student] *)

Definition str_or_empty (o : option pystr) : pystr := default [] o.
Definition opt_truthy (o : option pystr) : bool := PyStr.truthy (str_or_empty o).

(** [int(s)] for a string in base 10: surrounding whitespace, an optional
    sign, decimal digits with single underscores between them.  (Decimal
    digits outside Basic Latin are not covered.) *)
Fixpoint parse_digits (acc : Z) (after_digit : bool) (s : pystr) : option Z :=
  match s with
  | [] => if after_digit then Some acc else None
  | c :: r =>
      if (c =? 95)%N then
        if after_digit then parse_digits acc false r else None
      else if ((48 <=? c) && (c <=? 57))%N then
        parse_digits (10 * acc + (Z.of_N c - 48)) true r
      else None
  end.

Definition int_of_str (s : pystr) : exception + Z :=
  let digits body :=
    match body with
    | [] => None
    | _ => parse_digits 0 false body
    end in
  let parsed :=
    match strip s with
    | 43%N :: r => digits r
    | 45%N :: r => Z.opp <$> digits r
    | r => digits r
    end in
  match parsed with
  | Some z => inr z
  | None => inl ValueError
  end.

(** [int(v)] for a value decoded from JSON. *)
Definition py_int (v : json) : exception + Z :=
  match v with
  | JNull => inl TypeError
  | JBool b => inr (if b then 1 else 0)
  | JInt z => inr z
  | JFloat f => trunc f
  | JStr s => int_of_str s
  | JArray | JObject => inl TypeError
  end.

(** One round of the loop that builds [answer_map]: ValueError and
    TypeError skip the answer, any other exception leaves the loop. *)
Definition answer_map_step (answer_map : gmap Z pystr) (a : Answer)
    : exception + gmap Z pystr :=
  match py_int (default (JInt 0) (a_q_index a)) with
  | inr q_idx =>
      if 0 <? q_idx
      then inr (<[q_idx := str_or_empty (a_student_answer a)]> answer_map)
      else inr answer_map
  | inl ValueError | inl TypeError => inr answer_map
  | inl e => inl e
  end.

Fixpoint build_answer_map (answer_map : gmap Z pystr) (answers : list Answer)
    : exception + gmap Z pystr :=
  match answers with
  | [] => inr answer_map
  | a :: rest =>
      match answer_map_step answer_map a with
      | inr answer_map' => build_answer_map answer_map' rest
      | inl e => inl e
      end
  end.

Definition marks_of (q : Question) : num := default 0%float (q_marks q).

(** [q.get("answer") or q.get("correct_answer") or ""] *)
Definition correct_answer_of (q : Question) : pystr :=
  if opt_truthy (q_answer q) then str_or_empty (q_answer q)
  else if opt_truthy (q_correct_answer q) then str_or_empty (q_correct_answer q)
  else [].

Definition type_of (q : Question) : pystr :=
  lower (default (lit "Short") (q_type q)).

Definition is_mcq_type (qtype : pystr) : bool :=
  in_list qtype [lit "mcq"; lit "multiple"; lit "choice"].

(** The objective branch of the first pass: [(score, feedback)]. *)
Definition mcq_score (student_ans correct_ans : pystr) : num * pystr :=
  if negb (PyStr.truthy student_ans) || negb (PyStr.truthy correct_ans) then
    (0%float, lit "Answer missing.")
  else
    let s := lower (strip student_ans) in
    let c := lower (strip correct_ans) in
    if (length s =? 1)%nat && (length c =? 1)%nat then
      if PyStr.eqb s c then (1%float, lit "Correct") else (0%float, lit "Incorrect")
    else
      if PyStr.eqb s c then (1%float, lit "Correct") else (0%float, lit "Incorrect").

Record split_state := {
  subj_texts : list pystr;
  subj_q_indices : list Z;
  split_details : list Detail
}.

Definition first_pass_step (answer_map : gmap Z pystr) (st : split_state)
    (idx : Z) (q : Question) : split_state :=
  let qtype := type_of q in
  let correct_ans := correct_answer_of q in
  let marks := marks_of q in
  let student_ans := default [] (answer_map !! idx) in
  let detail :=
    {| d_q_index := idx; d_question := q_question q; d_type := q_type q;
       d_marks := marks; d_student_answer := student_ans;
       d_correct_answer := correct_ans; d_score_awarded := 0%float;
       d_feedback := []; d_similarity := None |} in
  if is_mcq_type qtype then
    let '(score, feedback) := mcq_score student_ans correct_ans in
    let detail := {| d_q_index := idx; d_question := q_question q;
                     d_type := q_type q; d_marks := marks;
                     d_student_answer := student_ans;
                     d_correct_answer := correct_ans;
                     d_score_awarded := PrimFloat.mul score marks;
                     d_feedback := feedback; d_similarity := None |} in
    {| subj_texts := subj_texts st; subj_q_indices := subj_q_indices st;
       split_details := split_details st ++ [detail] |}
  else
    {| subj_texts := subj_texts st ++ [student_ans; correct_ans];
       subj_q_indices := subj_q_indices st ++ [idx];
       split_details := split_details st ++ [detail] |}.

(** [for idx, q in enumerate(questions, start=...)] *)
Fixpoint first_pass (answer_map : gmap Z pystr) (st : split_state) (idx : Z)
    (questions : list Question) : split_state :=
  match questions with
  | [] => st
  | q :: rest =>
      first_pass answer_map (first_pass_step answer_map st idx q) (idx + 1) rest
  end.

(** The rubric applied to a similarity: [(awarded, feedback)]. *)
Definition similarity_score (sim marks : num) : num * pystr :=
  if ge sim 0.85%float then
    (marks, lit "Excellent")
  else if ge sim 0.7%float then
    (round 2 (PrimFloat.mul marks 0.6%float), lit "Partially correct")
  else if ge sim 0.55%float then
    (round 2 (PrimFloat.mul marks 0.3%float), lit "Attempted but insufficient")
  else
    (0%float, lit "Incorrect / off-topic").

(** The keyword-matching fallback occurs twice in the handler, with
    different feedback texts: inside the scoring loop, for a pair whose
    embedding is missing, and in the handler of an exception that left the
    scoring loop. *)
Record fallback_labels := {
  lbl_partially : pystr;
  lbl_attempted : pystr;
  lbl_insufficient : pystr
}.

Definition without_ai : fallback_labels :=
  {| lbl_partially := lit "Partially correct (evaluated without AI)";
     lbl_attempted := lit "Attempted (evaluated without AI)";
     lbl_insufficient := lit "Insufficient (evaluated without AI)" |}.

Definition fallback_evaluation : fallback_labels :=
  {| lbl_partially := lit "Partially correct (fallback evaluation)";
     lbl_attempted := lit "Attempted (fallback evaluation)";
     lbl_insufficient := lit "Insufficient (fallback evaluation)" |}.

Definition words (s : pystr) : gset pystr := list_to_set (split s).

Definition fallback_score (labels : fallback_labels)
    (student_answer correct_answer : pystr) (marks : num) : num * pystr :=
  let student_ans := lower student_answer in
  let correct_ans := lower correct_answer in
  if negb (PyStr.truthy student_ans) then
    (0%float, lit "No answer provided")
  else
    let student_words := words student_ans in
    let correct_words := words correct_ans in
    if (0 <? size correct_words)%nat then
      let overlap :=
        PrimFloat.div (of_nat (size (student_words ∩ correct_words)))
                      (of_nat (size correct_words)) in
      if ge overlap 0.6%float then
        (round 2 (PrimFloat.mul marks 0.7%float), lbl_partially labels)
      else if ge overlap 0.3%float then
        (round 2 (PrimFloat.mul marks 0.4%float), lbl_attempted labels)
      else
        (round 2 (PrimFloat.mul marks 0.1%float), lbl_insufficient labels)
    else
      (0%float, lit "Could not evaluate").

Definition set_score (detail : Detail) (r : num * pystr) : Detail :=
  {| d_q_index := d_q_index detail; d_question := d_question detail;
     d_type := d_type detail; d_marks := d_marks detail;
     d_student_answer := d_student_answer detail;
     d_correct_answer := d_correct_answer detail;
     d_score_awarded := r.1; d_feedback := r.2;
     d_similarity := d_similarity detail |}.

Definition set_similarity (detail : Detail) (sim : num) : Detail :=
  {| d_q_index := d_q_index detail; d_question := d_question detail;
     d_type := d_type detail; d_marks := d_marks detail;
     d_student_answer := d_student_answer detail;
     d_correct_answer := d_correct_answer detail;
     d_score_awarded := d_score_awarded detail;
     d_feedback := d_feedback detail; d_similarity := Some sim |}.

Definition apply_fallback (labels : fallback_labels) (detail : Detail) : Detail :=
  set_score detail
    (fallback_score labels (d_student_answer detail) (d_correct_answer detail)
       (d_marks detail)).

(** [embeddings[k] if k < len(embeddings) else None] *)
Definition embedding_at (embeddings : list (option embedding)) (k : nat)
    : option embedding :=
  if (k <? length embeddings)%nat then mjoin (embeddings !! k) else None.

(** [next((d for d in details if d["q_index"] == q_idx), None)]: the first
    detail with that index, with its position in the list (the detail is
    updated in place). *)
Definition find_detail (q_idx : Z) (details : list Detail) : option (nat * Detail) :=
  list_find (fun d => d_q_index d = q_idx) details.

(** How one pair is scored once its detail is found. *)
Definition score_pair (student_emb correct_emb : option embedding)
    (detail : Detail) : exception + Detail :=
  match student_emb, correct_emb with
  | Some se, Some ce =>
      match cosine_similarity se ce with
      | inr sim =>
          inr (set_score (set_similarity detail (round 3 sim))
                         (similarity_score sim (d_marks detail)))
      | inl e => inl e
      end
  | _, _ => inr (apply_fallback without_ai detail)
  end.

(** One round of the scoring loop. *)
Definition score_step (embeddings : list (option embedding)) (i : nat)
    (q_idx : Z) (details : list Detail) : exception + list Detail :=
  let student_emb := embedding_at embeddings (2 * i) in
  let correct_emb := embedding_at embeddings (2 * i + 1) in
  match find_detail q_idx details with
  | None => inr details
  | Some (k, detail) =>
      match score_pair student_emb correct_emb detail with
      | inr detail' => inr (<[k := detail']> details)
      | inl e => inl e
      end
  end.

(** The scoring loop: the details as the loop left them, and the
    exception that ended it, if any. *)
Fixpoint score_loop (embeddings : list (option embedding)) (i : nat)
    (q_indices : list Z) (details : list Detail)
    : list Detail * option exception :=
  match q_indices with
  | [] => (details, None)
  | q_idx :: rest =>
      match score_step embeddings i q_idx details with
      | inr details' => score_loop embeddings (S i) rest details'
      | inl e => (details, Some e)
      end
  end.

(** The exception handler around the scoring loop. *)
Fixpoint fallback_loop (q_indices : list Z) (details : list Detail)
    : list Detail :=
  match q_indices with
  | [] => details
  | q_idx :: rest =>
      match find_detail q_idx details with
      | Some (k, detail) =>
          fallback_loop rest (<[k := apply_fallback fallback_evaluation detail]> details)
      | None => fallback_loop rest details
      end
  end.

Definition batch_timeout (texts : list pystr) : Z :=
  Z.min 50 (20 + Z.of_nat (length texts) * 2).

Definition score_subjective (create : provider) (st : split_state) : list Detail :=
  match subj_texts st with
  | [] => split_details st
  | _ =>
      let embeddings :=
        get_embeddings_batch create (subj_texts st) (batch_timeout (subj_texts st)) in
      match score_loop embeddings 0 (subj_q_indices st) (split_details st) with
      | (details, None) => details
      | (details, Some _) => fallback_loop (subj_q_indices st) details
      end
  end.

(** Resolution of the paper: the inline paper, or the stored one. *)
Definition fetch_paper (env : Env) (data : Request) : response + option Paper :=
  match r_paper data, opt_truthy (r_paper_id data), papers_collection env with
  | None, true, Some collection =>
      match mongo_operation_with_retry
              (collection (str_or_empty (r_paper_id data))) 2 with
      | inr found =>
          match mjoin found with
          | Some paper => inr (Some paper)
          | None => inl (Failure 404 PaperIdNotFound)
          end
      | inl _ => inl (Failure 500 DatabaseConnectionError)
      end
  | paper, _, _ => inr paper
  end.

Definition empty_split : split_state :=
  {| subj_texts := []; subj_q_indices := []; split_details := [] |}.

(** Everything up to the scoring of the questions: the paper and the
    answer map, or the response that ends the request. *)
Definition intake (env : Env) (data : Request)
    : response + (Paper * gmap Z pystr) :=
  match fetch_paper env data with
  | inl r => inl r
  | inr None => inl (Failure 400 NoPaperProvided)
  | inr (Some paper) =>
      match p_questions paper, r_answers data with
      | [], _ => inl (Failure 400 PaperHasNoQuestions)
      | _, [] => inl (Failure 400 NoAnswersProvided)
      | _, answers =>
          match build_answer_map ∅ answers with
          | inr answer_map => inr (paper, answer_map)
          | inl e => inl (Failure 500 (EvaluationFailed e))
          end
      end
  end.

Definition total_marks_of (paper : Paper) : num :=
  default (sum (List.map marks_of (p_questions paper))) (p_total_marks paper).

Definition percentage_of (score marks : num) : num :=
  if truthy marks
  then round 2 (PrimFloat.mul (PrimFloat.div score marks) 100%float)
  else 0%float.

(** Scoring and aggregation, from the paper and the answer map to the
    evaluation document. *)
Definition build_evaluation (env : Env) (data : Request) (paper : Paper)
    (answer_map : gmap Z pystr) : EvaluationRecord :=
  let st := first_pass answer_map empty_split 1 (p_questions paper) in
  let details := score_subjective (embeddings_create env) st in
  let marks := total_marks_of paper in
  let score := sum (List.map d_score_awarded details) in
  {| eval_id := uuid4 env;
     student_id := default (lit "ANON") (r_student_id data);
     paper_id := r_paper_id data;
     paper_title := default (lit "Untitled") (p_title paper);
     timestamp := now env;
     total_marks := marks;
     total_score := score;
     percentage := percentage_of score marks;
     details := details |}.

(** Persistence is best effort: a failed save is logged and the response
    is not affected. *)
Definition save_evaluation (env : Env) (doc : EvaluationRecord)
    (store : list EvaluationRecord) : list EvaluationRecord :=
  match evaluations_collection env with
  | Some collection =>
      match mongo_operation_with_retry (collection doc) 3 with
      | inr (Some _) => store ++ [doc]
      | _ => store
      end
  | None => store
  end.

(** The handler: the response and the evaluations collection after it. *)
Definition evaluate_student (env : Env) (data : Request)
    (store : list EvaluationRecord) : response * list EvaluationRecord :=
  match intake env data with
  | inl r => (r, store)
  | inr (paper, answer_map) =>
      let doc := build_evaluation env data paper answer_map in
      (Success (eval_id doc) doc, save_evaluation env doc store)
  end.

(** ** The objective branch of [evaluate_mock]

    The mock-test route of the same service scores a choice question
    through [extract_answer_letter]: [(score, feedback, is_correct)]. *)
Definition evaluate_mock_mcq (student_answer correct_answer : pystr)
    (marks : num) : num * pystr * bool :=
  let student_ans := strip student_answer in
  let correct_ans := strip correct_answer in
  if negb (PyStr.truthy student_ans) || negb (PyStr.truthy correct_ans) then
    (0%float, lit "Answer missing.", false)
  else
    let student_letter := extract_answer_letter student_ans in
    let correct_letter := extract_answer_letter correct_ans in
    if PyStr.eqb student_letter correct_letter then
      (marks, 9989%N :: lit " Correct Answer", true)
    else
      (0%float, 10060%N :: lit " Incorrect Answer", false).

(** ** Inputs used in the examples *)

Definition question (type answer : string) (marks : num) : Question :=
  {| q_question := Some (lit "Q"); q_type := Some (lit type);
     q_answer := Some (lit answer); q_correct_answer := None;
     q_marks := Some marks; q_id := None |}.

Definition answer (q_index : json) (text : string) : Answer :=
  {| a_q_index := Some q_index; a_student_answer := Some (lit text) |}.

Definition inline_request (questions : list Question) (answers : list Answer)
    : Request :=
  {| r_student_id := Some (lit "STU001"); r_paper_id := None;
     r_paper := Some {| p_title := Some (lit "Operating Systems");
                        p_questions := questions; p_total_marks := None |};
     r_answers := answers |}.

Definition env_with (papers : option (pystr -> nat -> db_outcome (option Paper)))
    (create : provider) : Env :=
  {| papers_collection := papers;
     evaluations_collection := Some (fun _ _ => DbReturns tt);
     embeddings_create := create;
     uuid4 := lit "3f0c8a52-5d1b-4c1e-9a57-0b6a2f1f7e11";
     now := lit "2025-01-01 10:00:00" |}.

Definition provider_down : provider := fun _ _ => ProviderRaises.
Definition provider_same (v : embedding) : provider :=
  fun texts _ => ProviderReturns (List.map (fun _ => v) texts).

(** Scenario A: one choice question, reference "A", answer "a) option text". *)
Definition scenario_a : Request :=
  inline_request [question "MCQ" "A" 1%float] [answer (JInt 1) "a) option text"].


(** A paper with two questions and an answer indexed 2.5. *)
Definition fractional_index : Request :=
  inline_request
    [question "Short" "a process is a program in execution" 5%float;
     question "mcq" "b" 2%float]
    [answer (JInt 1) "a running program"; answer (JFloat 2.5%float) "B"].

(** A request that names a stored paper. *)
Definition by_paper_id : Request :=
  {| r_student_id := None; r_paper_id := Some (lit "paper-42"); r_paper := None;
     r_answers := [answer (JInt 1) "A"] |}.

(** The ASCII lower-case mapping of one code point. *)
Definition ascii_lower (c : char) : char :=
  if is_ascii_upper c then (c + 32)%N else c.

(** What the normalizer returns for a stripped ASCII answer. *)
Definition letter_or_text (a : pystr) : pystr :=
  match a with
  | [] => []
  | c :: _ => if is_ascii_letter c then [ascii_lower c] else List.map ascii_lower a
  end.

(** The facts about Basic Latin that the normalizer relies on, as one
    check per code point. *)
Definition basic_latin_ok (c : char) : bool :=
  PyStr.eqb (lower_char c) [ascii_lower c]
  && Bool.eqb (isalpha_char c) (is_ascii_letter c)
  && Bool.eqb (isspace (ascii_lower c)) (isspace c)
  && (ascii_lower (ascii_lower c) =? ascii_lower c)%N
  && (ascii_lower c <? 128)%N
  && Bool.eqb (is_ascii_letter (ascii_lower c)) (is_ascii_letter c)
  && implb (is_ascii_letter c) (negb (isspace c))
  && implb (negb (is_ascii_letter c)) (ascii_lower c =? c)%N.

(** A string that [lstrip] leaves alone. *)
Definition head_ok (s : pystr) : Prop :=
  match s with
  | [] => True
  | c :: _ => isspace c = false
  end.

(** The position of a number in the order of the binary64 values, as a
    lexicographic key (NaN is unordered and gets no meaningful key). *)
Definition rank (x : spec_float) : Z * Z * Z :=
  match x with
  | S754_infinity true => (0, 0, 0)
  | S754_finite true m e => (1, - e, - Zpos m)
  | S754_zero _ => (2, 0, 0)
  | S754_finite false m e => (3, e, Zpos m)
  | S754_infinity false => (4, 0, 0)
  | S754_nan => (5, 0, 0)
  end.

Definition lex_lt (p q : Z * Z * Z) : Prop :=
  p.1.1 < q.1.1
  \/ (p.1.1 = q.1.1 /\ (p.1.2 < q.1.2 \/ (p.1.2 = q.1.2 /\ p.2 < q.2))).

Definition lex_le (p q : Z * Z * Z) : Prop :=
  p.1.1 < q.1.1
  \/ (p.1.1 = q.1.1 /\ (p.1.2 < q.1.2 \/ (p.1.2 = q.1.2 /\ p.2 <= q.2))).




(** The outage scenario with a reference of five tokens, three of which
    the answer shares. *)
Definition three_of_five : Request :=
  inline_request
    [question "Subjective" "deadlock when processes wait circularly" 10%float]
    [answer (JInt 1) "deadlock wait circularly"].

(** The details of a successful response. *)
Definition response_details (r : response) : option (list Detail) :=
  match r with
  | Success _ evaluation => Some (details evaluation)
  | Failure _ _ => None
  end.

(** [(awarded, feedback)] of every detail of a successful response. *)
Definition outcomes (r : response) : option (list (num * pystr)) :=
  List.map (fun d => (d_score_awarded d, d_feedback d)) <$> response_details r.

(** [math.isfinite(x)] *)
Definition finite (x : num) : bool :=
  PrimFloat.ltb (PrimFloat.abs x) PrimFloat.infinity.

(** A provider that answers every batch with one vector only. *)
Definition provider_one : provider := fun _ _ => ProviderReturns [[1; 0]%float].

(** The paper store of the examples: one stored paper, "paper-42". *)
Definition stored_paper : Paper :=
  {| p_title := Some (lit "Stored"); p_questions := [question "mcq" "A" 1%float];
     p_total_marks := Some 1%float |}.

Definition one_paper_store : pystr -> nat -> db_outcome (option Paper) :=
  fun id _ => DbReturns (if PyStr.eqb id (lit "paper-42") then Some stored_paper else None).

(** A request that names a paper the store does not hold. *)
Definition by_unknown_paper_id : Request :=
  {| r_student_id := None; r_paper_id := Some (lit "paper-7"); r_paper := None;
     r_answers := [answer (JInt 1) "A"] |}.

(** What the lookup of the paper named by the request comes to: the
    document found, if any, or the failure of the lookup. *)
Definition lookup_paper (collection : pystr -> nat -> db_outcome (option Paper))
    (data : Request) : unit + option Paper :=
  match mongo_operation_with_retry
          (collection (str_or_empty (r_paper_id data))) 2 with
  | inr found => inr (mjoin found)
  | inl e => inl e
  end.

(** The evaluation document of the request [fractional_index] under a
    provider outage. *)
Definition fractional_index_evaluation : EvaluationRecord :=
  build_evaluation (env_with None provider_down) fractional_index
    {| p_title := Some (lit "Operating Systems");
       p_questions := [question "Short" "a process is a program in execution" 5%float;
                       question "mcq" "b" 2%float];
       p_total_marks := None |}
    (<[2 := lit "B"]> (<[1 := lit "a running program"]> ∅)).

(** The detail that the first pass appends for question [q] at index
    [idx]. *)
Definition first_pass_detail (answer_map : gmap Z pystr) (idx : Z) (q : Question)
    : Detail :=
  let student_ans := default [] (answer_map !! idx) in
  let correct_ans := correct_answer_of q in
  let scored := mcq_score student_ans correct_ans in
  {| d_q_index := idx; d_question := q_question q; d_type := q_type q;
     d_marks := marks_of q; d_student_answer := student_ans;
     d_correct_answer := correct_ans;
     d_score_awarded :=
       if is_mcq_type (type_of q) then PrimFloat.mul scored.1 (marks_of q)
       else 0%float;
     d_feedback := if is_mcq_type (type_of q) then scored.2 else [];
     d_similarity := None |}.

Fixpoint details_from (answer_map : gmap Z pystr) (idx : Z)
    (questions : list Question) : list Detail :=
  match questions with
  | [] => []
  | q :: rest =>
      first_pass_detail answer_map idx q :: details_from answer_map (idx + 1) rest
  end.

(** The indices the first pass queues for the embedding batch. *)
Fixpoint subjective_from (idx : Z) (questions : list Question) : list Z :=
  match questions with
  | [] => []
  | q :: rest =>
      if is_mcq_type (type_of q) then subjective_from (idx + 1) rest
      else idx :: subjective_from (idx + 1) rest
  end.

(** The texts of the one embedding call of a request. *)
Definition batch_texts (paper : Paper) (answer_map : gmap Z pystr) : list pystr :=
  subj_texts (first_pass answer_map empty_split 1 (p_questions paper)).

(** The fields of a detail that scoring never writes. *)
Definition same_question (d d' : Detail) : Prop :=
  d_q_index d = d_q_index d' /\ d_question d = d_question d'
  /\ d_type d = d_type d' /\ d_marks d = d_marks d'
  /\ d_student_answer d = d_student_answer d'
  /\ d_correct_answer d = d_correct_answer d'.

(** Details numbered by their position, from 1. *)
Definition indexed (details : list Detail) : Prop :=
  forall (k : nat) d, details !! k = Some d -> d_q_index d = 1 + Z.of_nat k.

(** The in-place update of the first detail with index [q_idx]. *)
Definition update_detail (g : Detail -> Detail) (details : list Detail)
    (q_idx : Z) : list Detail :=
  match find_detail q_idx details with
  | Some (k, detail) => <[k := g detail]> details
  | None => details
  end.

(** The question an answer is filed under: [int(q_index)] when it
    succeeds with a positive result. *)
Definition index_of (a : Answer) : option Z :=
  match py_int (default (JInt 0) (a_q_index a)) with
  | inr n => if 0 <? n then Some n else None
  | inl _ => None
  end.

(** The text of the last answer filed under question [n]. *)
Fixpoint answer_for (n : Z) (answers : list Answer) : option pystr :=
  match answers with
  | [] => None
  | a :: rest =>
      match answer_for n rest with
      | Some text => Some text
      | None =>
          if bool_decide (index_of a = Some n)
          then Some (str_or_empty (a_student_answer a))
          else None
      end
  end.

(** A paper whose questions carry other stored indices. *)
Definition with_q_id (f : Question -> option Z) (q : Question) : Question :=
  {| q_question := q_question q; q_type := q_type q; q_answer := q_answer q;
     q_correct_answer := q_correct_answer q; q_marks := q_marks q;
     q_id := f q |}.

Definition renumbered (f : Question -> option Z) (paper : Paper) : Paper :=
  {| p_title := p_title paper;
     p_questions := List.map (with_q_id f) (p_questions paper);
     p_total_marks := p_total_marks paper |}.


(** A store operation that fails twice with a connection error and then
    returns. *)
Definition third_time_lucky : nat -> db_outcome Z :=
  fun attempt => if (attempt <? 2)%nat then DbConnectionError else DbReturns 7.

(** What one round of the scoring loop writes into the detail of its
    pair, when scoring the pair raises nothing. *)
Definition pair_result (embeddings : list (option embedding)) (i : nat)
    (detail : Detail) : Detail :=
  match score_pair (embedding_at embeddings (2 * i))
                   (embedding_at embeddings (2 * i + 1)) detail with
  | inr detail' => detail'
  | inl _ => detail
  end.

(** The texts the first pass queues for the embedding batch. *)
Fixpoint texts_from (answer_map : gmap Z pystr) (idx : Z)
    (questions : list Question) : list pystr :=
  match questions with
  | [] => []
  | q :: rest =>
      if is_mcq_type (type_of q) then texts_from answer_map (idx + 1) rest
      else default [] (answer_map !! idx) :: correct_answer_of q
           :: texts_from answer_map (idx + 1) rest
  end.

(** The question indices of the one embedding call of a request. *)
Definition batch_indices (paper : Paper) (answer_map : gmap Z pystr) : list Z :=
  subj_q_indices (first_pass answer_map empty_split 1 (p_questions paper)).


(** A paper with a choice question between two free-text questions. *)
Definition mixed_paper : Request :=
  inline_request
    [question "Short" "a process is a program in execution" 5%float;
     question "MCQ" "b" 2%float;
     question "Long" "deadlock when processes wait circularly" 10%float]
    [answer (JInt 3) "deadlock wait circularly"; answer (JInt 2) "B";
     answer (JInt 1) "a running program"].

Definition mixed_paper_paper : Paper :=
  {| p_title := Some (lit "Operating Systems");
     p_questions :=
       [question "Short" "a process is a program in execution" 5%float;
        question "MCQ" "b" 2%float;
        question "Long" "deadlock when processes wait circularly" 10%float];
     p_total_marks := None |}.

Definition mixed_paper_answers : gmap Z pystr :=
  <[1 := lit "a running program"]>
    (<[2 := lit "B"]> (<[3 := lit "deadlock wait circularly"]> ∅)).

(** An answer whose [q_index] is an infinite number. *)
Definition infinite_index (a : Answer) : Prop :=
  a_q_index a = Some (JFloat PrimFloat.infinity)
  \/ a_q_index a = Some (JFloat PrimFloat.neg_infinity).

(** The same request with other answers. *)
Definition with_answers (answers : list Answer) (data : Request) : Request :=
  {| r_student_id := r_student_id data; r_paper_id := r_paper_id data;
     r_paper := r_paper data; r_answers := answers |}.

(** The answers of [mixed_paper] in another order. *)
Definition mixed_paper_reordered : list Answer :=
  [answer (JInt 1) "a running program"; answer (JInt 2) "B";
   answer (JInt 3) "deadlock wait circularly"].

(** ** The objective rules of the two other evaluators *)

(** [evaluate_mcq_answer] of [smart_evaluator/evaluator.py]:
    [(score, feedback)]. *)
Module SmartEvaluator.
Definition evaluate_mcq_answer (student_ans correct_ans : pystr) : num * pystr :=
  if negb (PyStr.truthy student_ans) || negb (PyStr.truthy correct_ans) then
    (0%float, lit "Answer missing.")
  else
    let s := lower (strip student_ans) in
    let c := lower (strip correct_ans) in
    if (length s =? 1)%nat && (length c =? 1)%nat then
      if PyStr.eqb s c then (1%float, lit "Correct") else (0%float, lit "Incorrect")
    else if PyStr.eqb s c then
      (1%float, lit "Correct")
    else if is_prefix s c || is_prefix c s then
      (* c.startswith(s) or s.startswith(c) *)
      (1%float, lit "Correct (normalized)")
    else
      (0%float, lit "Incorrect").
End SmartEvaluator.

(** [evaluate_mcq] of [mock_test/eval_engine.py]: [(score, feedback)]. *)
Module EvalEngine.
Definition evaluate_mcq (student_answer correct_answer : pystr) : num * pystr :=
  if negb (PyStr.truthy student_answer) || negb (PyStr.truthy correct_answer) then
    (0%float, lit "Answer missing.")
  else if PyStr.eqb (lower (strip student_answer)) (lower (strip correct_answer)) then
    (1%float, 9989%N :: lit " Correct Answer")
  else
    (0%float, 10060%N :: lit " Incorrect Answer").
End EvalEngine.

(** ** The subjective branch of [evaluate_mock] *)

(** How the branch can fail: indexing the list of embeddings, or an
    exception of [cosine_similarity]. *)
Inductive mock_failure :=
| IndexError
| Raised (e : exception).

(** Truth value of an entry of the list of embeddings: [None] and the
    empty vector are false. *)
Definition embedding_truthy (e : option embedding) : bool :=
  match e with
  | Some (_ :: _) => true
  | _ => false
  end.

Definition en_dash : pystr := [8211%N].

(** [(score, similarity, feedback, is_correct)] of a free-text question
    in [evaluate_mock]. *)
Definition evaluate_mock_subjective (create : provider)
    (student_answer correct_answer : pystr) (marks : num)
    : mock_failure + (num * num * pystr * bool) :=
  let student_ans := strip student_answer in
  let correct_ans := strip correct_answer in
  if negb (PyStr.truthy student_ans) || negb (PyStr.truthy correct_ans) then
    inr (0%float, 0%float, lit "Answer missing.", false)
  else
    let embeddings := get_embeddings_batch create [student_ans; correct_ans] 40 in
    match embeddings !! 0%nat with
    | None => inl IndexError
    | Some e0 =>
        if negb (embedding_truthy e0) then
          inr (0%float, 0%float, lit "Embedding generation failed.", false)
        else
          match embeddings !! 1%nat with
          | None => inl IndexError
          | Some e1 =>
              if negb (embedding_truthy e1) then
                inr (0%float, 0%float, lit "Embedding generation failed.", false)
              else
                match cosine_similarity (default [] e0) (default [] e1) with
                | inl e => inl (Raised e)
                | inr similarity =>
                    let '(score, feedback, is_correct) :=
                      if ge similarity 0.85%float then
                        (marks,
                         lit "Excellent " ++ en_dash
                           ++ lit " conceptually accurate and complete.", true)
                      else if ge similarity 0.7%float then
                        (round 2 (PrimFloat.mul marks 0.6%float),
                         lit "Partially correct " ++ en_dash
                           ++ lit " needs more detail or clarity.", false)
                      else
                        (0%float,
                         lit "Incorrect or lacks conceptual understanding.", false) in
                    inr (score, round 3 similarity, feedback, is_correct)
                end
          end
    end.

(** A provider that answers the first text only. *)
Definition provider_first_only : provider :=
  fun _ _ => ProviderReturns [[3; 4]%float].

(** * Properties *)

(** ** Python built-ins on sample values *)

Example extract_letter_text : extract_answer_letter (lit "B) Text") = lit "b".
Proof. vm_compute. reflexivity. Qed.

Example extract_letter_upper : extract_answer_letter (lit "  C ") = lit "c".
Proof. vm_compute. reflexivity. Qed.

Example extract_non_letter : extract_answer_letter (lit " 42 Is It") = lit "42 is it".
Proof. vm_compute. reflexivity. Qed.

Example round_examples :
  PyNum.round 2 2.675%float = 2.67%float /\ PyNum.round 2 0.125%float = 0.12%float
  /\ PyNum.round 2 0.375%float = 0.38%float /\ PyNum.round 2 6%float = 6%float
  /\ PyNum.round 2 (-0.001)%float = PrimFloat.neg_zero /\ PyNum.round 3 0.71999%float = 0.72%float
  /\ PyNum.round 2 1.005%float = 1%float /\ PyNum.round 2 1e300%float = 1e300%float
  /\ PyNum.round 2 33.33333333333333%float = 33.33%float.
Proof. vm_compute. repeat split; reflexivity. Qed.

Example trunc_examples :
  PyNum.trunc 2.5%float = inr 2 /\ PyNum.trunc (-2.5)%float = inr (-2)
  /\ PyNum.trunc 0.5%float = inr 0 /\ PyNum.trunc PrimFloat.infinity = inl PyNum.OverflowError
  /\ PyNum.trunc 1e20%float = inr (10 ^ 20).
Proof. vm_compute. repeat split; reflexivity. Qed.

Example split_example :
  split (lit "  deadlock  circular wait ") = [lit "deadlock"; lit "circular"; lit "wait"].
Proof. vm_compute. reflexivity. Qed.

Example cosine_orthogonal :
  cosine_similarity [1; 0]%float [0; 1]%float = inr 0%float.
Proof. vm_compute. reflexivity. Qed.

Example cosine_opposite :
  cosine_similarity [3; 4]%float [-3; -4]%float = inr (-1)%float.
Proof. vm_compute. reflexivity. Qed.

(** ** The normalizer *)

Lemma basic_latin_all :
  forallb basic_latin_ok (List.map N.of_nat (seq 0 128)) = true.
Proof. vm_compute. reflexivity. Qed.

Lemma basic_latin c : (c < 128)%N -> basic_latin_ok c = true.
Proof.
  intros Hc.
  pose proof basic_latin_all as H.
  rewrite forallb_forall in H. apply H.
  apply in_map_iff. exists (N.to_nat c). split; [lia|].
  apply in_seq. lia.
Qed.

Section BasicLatin.
Variable c : char.
Hypothesis Hc : (c < 128)%N.

Lemma lower_char_ascii : lower_char c = [ascii_lower c].
Proof.
  pose proof (basic_latin c Hc) as H. unfold basic_latin_ok in H.
  repeat (apply andb_prop in H; destruct H as [H ?]).
  unfold PyStr.eqb in H. by apply bool_decide_eq_true in H.
Qed.

Lemma isalpha_char_ascii : isalpha_char c = is_ascii_letter c.
Proof.
  pose proof (basic_latin c Hc) as H. unfold basic_latin_ok in H.
  repeat (apply andb_prop in H; destruct H as [H ?]).
  by apply Bool.eqb_prop.
Qed.

Lemma isspace_ascii_lower : isspace (ascii_lower c) = isspace c.
Proof.
  pose proof (basic_latin c Hc) as H. unfold basic_latin_ok in H.
  repeat (apply andb_prop in H; destruct H as [H ?]).
  by apply Bool.eqb_prop.
Qed.

Lemma ascii_lower_idem : ascii_lower (ascii_lower c) = ascii_lower c.
Proof.
  pose proof (basic_latin c Hc) as H. unfold basic_latin_ok in H.
  repeat (apply andb_prop in H; destruct H as [H ?]).
  by apply N.eqb_eq.
Qed.

Lemma ascii_lower_bound : (ascii_lower c < 128)%N.
Proof.
  pose proof (basic_latin c Hc) as H. unfold basic_latin_ok in H.
  repeat (apply andb_prop in H; destruct H as [H ?]).
  by apply N.ltb_lt.
Qed.

Lemma letter_ascii_lower : is_ascii_letter (ascii_lower c) = is_ascii_letter c.
Proof.
  pose proof (basic_latin c Hc) as H. unfold basic_latin_ok in H.
  repeat (apply andb_prop in H; destruct H as [H ?]).
  by apply Bool.eqb_prop.
Qed.

Lemma letter_not_space : is_ascii_letter c = true -> isspace c = false.
Proof.
  pose proof (basic_latin c Hc) as H. unfold basic_latin_ok in H.
  repeat (apply andb_prop in H; destruct H as [H ?]).
  intros Hl. rewrite Hl in *. simpl in *. by apply negb_true_iff.
Qed.

Lemma ascii_lower_non_letter : is_ascii_letter c = false -> ascii_lower c = c.
Proof.
  pose proof (basic_latin c Hc) as H. unfold basic_latin_ok in H.
  repeat (apply andb_prop in H; destruct H as [H ?]).
  intros Hl. rewrite Hl in *. simpl in *. by apply N.eqb_eq.
Qed.
End BasicLatin.

Lemma lower_ascii s : is_ascii s -> lower s = List.map ascii_lower s.
Proof.
  induction 1 as [|c s Hc _ IH]; [reflexivity|].
  unfold lower in *. simpl. rewrite IH, (lower_char_ascii c Hc). reflexivity.
Qed.

Lemma map_ascii_lower_ascii s : is_ascii s -> is_ascii (List.map ascii_lower s).
Proof.
  induction 1 as [|c s Hc _ IH]; constructor; auto using ascii_lower_bound.
Qed.

Lemma map_ascii_lower_idem s :
  is_ascii s -> List.map ascii_lower (List.map ascii_lower s) = List.map ascii_lower s.
Proof.
  induction 1 as [|c s Hc _ IH]; simpl; [reflexivity|].
  rewrite IH, (ascii_lower_idem c Hc). reflexivity.
Qed.

Lemma lstrip_head_ok s : head_ok (lstrip s).
Proof.
  induction s as [|c s IH]; simpl; [exact I|].
  destruct (isspace c) eqn:E; [exact IH|exact E].
Qed.

Lemma lstrip_fixed s : head_ok s -> lstrip s = s.
Proof. destruct s as [|c s]; simpl; [reflexivity|]. intros ->. reflexivity. Qed.

(** [lstrip] removes a prefix. *)
Lemma lstrip_suffix s : exists p, s = p ++ lstrip s.
Proof.
  induction s as [|c s [p IH]]; [exists []; reflexivity|].
  simpl. destruct (isspace c).
  - exists (c :: p). simpl. congruence.
  - exists []. reflexivity.
Qed.

Lemma lstrip_ascii s : is_ascii s -> is_ascii (lstrip s).
Proof.
  intros H. destruct (lstrip_suffix s) as [p Hp].
  unfold is_ascii in *. rewrite Hp in H. by apply Forall_app in H as [_ ?].
Qed.

Lemma head_ok_prefix (s t : pystr) : head_ok (s ++ t) -> head_ok s.
Proof. destruct s; simpl; auto. Qed.

Lemma strip_head_ok s : head_ok (strip s).
Proof.
  unfold strip.
  destruct (lstrip_suffix (rev (lstrip s))) as [p Hp].
  apply (f_equal (@rev char)) in Hp. rewrite rev_involutive, rev_app_distr in Hp.
  apply head_ok_prefix with (t := rev p). rewrite <- Hp. apply lstrip_head_ok.
Qed.

Lemma strip_rev_head_ok s : head_ok (rev (strip s)).
Proof. unfold strip. rewrite rev_involutive. apply lstrip_head_ok. Qed.

Lemma strip_fixed s : head_ok s -> head_ok (rev s) -> strip s = s.
Proof.
  intros H1 H2. unfold strip.
  rewrite (lstrip_fixed s H1), (lstrip_fixed _ H2). apply rev_involutive.
Qed.

Lemma strip_idem s : strip (strip s) = strip s.
Proof. apply strip_fixed; [apply strip_head_ok|apply strip_rev_head_ok]. Qed.

Lemma strip_ascii s : is_ascii s -> is_ascii (strip s).
Proof.
  intros H. unfold strip, is_ascii.
  apply Forall_rev, lstrip_ascii, Forall_rev, lstrip_ascii, H.
Qed.

Lemma head_ok_map_lower s :
  is_ascii s -> head_ok s -> head_ok (List.map ascii_lower s).
Proof.
  destruct 1 as [|c s Hc _]; simpl; [auto|].
  intros H. rewrite (isspace_ascii_lower c Hc). exact H.
Qed.

Lemma strip_map_lower_fixed s :
  is_ascii s -> head_ok s -> head_ok (rev s) ->
  strip (List.map ascii_lower s) = List.map ascii_lower s.
Proof.
  intros Ha H1 H2. apply strip_fixed.
  - by apply head_ok_map_lower.
  - rewrite <- map_rev. apply head_ok_map_lower; [by apply Forall_rev|done].
Qed.

(** On an ASCII answer every branch of the normalizer that fires on a
    leading letter returns that letter in lower case, and the last
    branch returns the stripped answer in lower case. *)
Lemma extract_answer_letter_ascii x :
  is_ascii x -> x <> [] ->
  extract_answer_letter x = letter_or_text (strip x).
Proof.
  intros Ha Hx.
  pose proof (strip_ascii x Ha) as Hs.
  unfold extract_answer_letter.
  destruct x as [|x0 x']; [done|]. cbn [PyStr.truthy negb].
  destruct (strip (x0 :: x')) as [|c [|c1 r]] eqn:E.
  - reflexivity.
  - apply Forall_cons in Hs as [Hc _].
    cbn [length Nat.eqb andb isalpha forallb at_index lookup list_lookup
         re_match_letter_sep letter_or_text PyStr.truthy Nat.leb].
    rewrite (isalpha_char_ascii c Hc), andb_true_r.
    rewrite (lower_ascii [c]) by (by constructor).
    destruct (is_ascii_letter c); reflexivity.
  - apply Forall_cons in Hs as [Hc Hr].
    assert (Hcr : is_ascii (c :: c1 :: r)) by (by constructor).
    cbn [length Nat.eqb andb isalpha forallb at_index lookup list_lookup
         re_match_letter_sep letter_or_text PyStr.truthy Nat.leb].
    rewrite (isalpha_char_ascii c Hc), andb_true_r.
    rewrite (lower_ascii [c]) by (by constructor).
    rewrite (lower_ascii _ Hcr).
    destruct (is_ascii_letter c); cbn [andb];
      repeat match goal with |- context [if ?b then _ else _] => destruct b end;
      rewrite ?(lower_ascii [c]) by (by constructor); reflexivity.
Qed.

Lemma letter_or_text_idem a :
  is_ascii a -> head_ok a -> head_ok (rev a) ->
  extract_answer_letter (letter_or_text a) = letter_or_text a.
Proof.
  intros Ha H1 H2.
  destruct a as [|c r]; [reflexivity|].
  pose proof Ha as Ha'. apply Forall_cons in Ha' as [Hc Hr].
  cbn [letter_or_text]. destruct (is_ascii_letter c) eqn:El.
  - pose proof (ascii_lower_bound c Hc) as Hb.
    assert (Hl : is_ascii_letter (ascii_lower c) = true)
      by (by rewrite letter_ascii_lower).
    rewrite extract_answer_letter_ascii; [|by repeat constructor|done].
    rewrite strip_fixed.
    + cbn [letter_or_text]. rewrite Hl, (ascii_lower_idem c Hc). reflexivity.
    + cbn [head_ok]. by apply letter_not_space.
    + cbn [rev app head_ok]. by apply letter_not_space.
  - rewrite extract_answer_letter_ascii;
      [|by apply map_ascii_lower_ascii|done].
    rewrite (strip_map_lower_fixed _ Ha H1 H2).
    cbn [List.map letter_or_text].
    rewrite (letter_ascii_lower c Hc), El.
    change (ascii_lower (ascii_lower c) :: List.map ascii_lower (List.map ascii_lower r))
      with (List.map ascii_lower (List.map ascii_lower (c :: r))).
    by rewrite map_ascii_lower_idem.
Qed.

(** C9 (as amended): the answer normalizer is idempotent on every ASCII
    input string: [normalize (normalize x) = normalize x]. *)
Theorem extract_answer_letter_idempotent x :
  is_ascii x ->
  extract_answer_letter (extract_answer_letter x) = extract_answer_letter x.
Proof.
  intros Ha. destruct x as [|x0 x'] eqn:Ex; [reflexivity|]. rewrite <- Ex in *.
  assert (Hx : x <> []) by (by subst).
  rewrite (extract_answer_letter_ascii x Ha Hx).
  apply letter_or_text_idem.
  - by apply strip_ascii.
  - apply strip_head_ok.
  - apply strip_rev_head_ok.
Qed.

Lemma extract_answer_letter_idempotent_witness :
  is_ascii (lit "B) Text")
  /\ extract_answer_letter (extract_answer_letter (lit "B) Text"))
     = extract_answer_letter (lit "B) Text").
Proof.
  assert (H : is_ascii (lit "B) Text")).
  { unfold is_ascii. cbv [lit list_ascii_of_string List.map].
    repeat constructor. }
  split; [exact H|exact (extract_answer_letter_idempotent _ H)].
Defined.

(** C9 (as stated) fails on U+0130, whose lower case is two code points:
    the normalizer maps it to "i" followed by a combining dot, and maps
    that to "i". *)
Lemma extract_answer_letter_not_idempotent :
  extract_answer_letter (extract_answer_letter [U_0130])
  <> extract_answer_letter [U_0130].
Proof. vm_compute. discriminate. Qed.

(** ** Facts about binary64 comparisons and products *)

Lemma SFltb_rank x y :
  SFltb x y = true <->
  x <> S754_nan /\ y <> S754_nan /\ lex_lt (rank x) (rank y).
Proof.
  unfold SFltb, lex_lt.
  destruct x as [sx|sx| |sx mx ex], y as [sy|sy| |sy my ey];
    try destruct sx; try destruct sy; cbn [SFcompare rank fst snd];
    try change (Pos.compare_cont Eq mx my) with (mx ?= my)%positive;
    try destruct (Z.compare_spec ex ey);
    try destruct (Pos.compare_spec mx my); cbn [CompOpp];
    (split; [intros Hcmp; try discriminate Hcmp;
             (split; [discriminate|split; [discriminate|lia]])
            |intros (Hx & Hy & Hlex); try reflexivity; try congruence; lia]).
Qed.

Lemma SFleb_rank x y :
  SFleb x y = true <->
  x <> S754_nan /\ y <> S754_nan /\ lex_le (rank x) (rank y).
Proof.
  unfold SFleb, lex_le.
  destruct x as [sx|sx| |sx mx ex], y as [sy|sy| |sy my ey];
    try destruct sx; try destruct sy; cbn [SFcompare rank fst snd];
    try change (Pos.compare_cont Eq mx my) with (mx ?= my)%positive;
    try destruct (Z.compare_spec ex ey);
    try destruct (Pos.compare_spec mx my); cbn [CompOpp];
    (split; [intros Hcmp; try discriminate Hcmp;
             (split; [discriminate|split; [discriminate|lia]])
            |intros (Hx & Hy & Hlex); try reflexivity; try congruence; lia]).
Qed.

(** [a < b] excludes [a >= b]. *)
Lemma lt_not_ge a b : lt a b = true -> ge a b = false.
Proof.
  unfold lt, ge. rewrite ltb_spec, leb_spec.
  intros (Ha & Hb & H)%SFltb_rank.
  apply not_true_is_false. intros (_ & _ & H')%SFleb_rank.
  unfold lex_lt, lex_le in *. lia.
Qed.

(** [a < b] and [b <= c] give [a < c]. *)
Lemma lt_le_trans a b c : lt a b = true -> ge c b = true -> lt a c = true.
Proof.
  unfold lt, ge. rewrite !ltb_spec, leb_spec.
  intros (Ha & Hb & H)%SFltb_rank (_ & Hc & H')%SFleb_rank.
  apply SFltb_rank. repeat split; try assumption.
  unfold lex_lt, lex_le in *. lia.
Qed.

Lemma SFmul_comm x y : SFmul prec emax x y = SFmul prec emax y x.
Proof.
  destruct x as [sx|sx| |sx mx ex], y as [sy|sy| |sy my ey];
    cbn [SFmul]; rewrite ?(xorb_comm sx sy); try reflexivity.
  by rewrite (Pos.mul_comm mx my), (Z.add_comm ex ey).
Qed.

Lemma mul_comm (a b : num) : PrimFloat.mul a b = PrimFloat.mul b a.
Proof.
  apply Prim2SF_inj. rewrite !mul_spec. apply SFmul_comm.
Qed.

(** ** The subjective rubric *)

Lemma similarity_score_tiers s m :
  (ge s 0.85%float = true ->
     similarity_score s m = (m, lit "Excellent"))
  /\ (ge s 0.7%float = true -> lt s 0.85%float = true ->
     similarity_score s m
     = (round 2 (PrimFloat.mul 0.6%float m), lit "Partially correct"))
  /\ (ge s 0.55%float = true -> lt s 0.7%float = true ->
     similarity_score s m
     = (round 2 (PrimFloat.mul 0.3%float m), lit "Attempted but insufficient"))
  /\ (lt s 0.55%float = true ->
     similarity_score s m = (0%float, lit "Incorrect / off-topic")).
Proof.
  unfold similarity_score.
  rewrite (mul_comm m 0.6%float), (mul_comm m 0.3%float).
  repeat split.
  - intros ->. reflexivity.
  - intros H7 H85%lt_not_ge. rewrite H85, H7. reflexivity.
  - intros H55 H7.
    assert (H85 : lt s 0.85%float = true)
      by (apply (lt_le_trans s 0.7%float); [exact H7|reflexivity]).
    apply lt_not_ge in H7, H85. rewrite H85, H7, H55. reflexivity.
  - intros H55.
    assert (H7 : lt s 0.7%float = true)
      by (apply (lt_le_trans s 0.55%float); [exact H55|reflexivity]).
    assert (H85 : lt s 0.85%float = true)
      by (apply (lt_le_trans s 0.7%float); [exact H7|reflexivity]).
    apply lt_not_ge in H55, H7, H85. rewrite H85, H7, H55. reflexivity.
Qed.



(** The rubric at its thresholds and at the floats next to them, for
    maximum marks 10; 0.9 and 0.72 are the similarities of scenarios B
    and C. *)
Example similarity_score_boundaries :
  similarity_score 0.85%float 10%float = (10%float, lit "Excellent")
  /\ similarity_score (next_up 0.85%float) 10%float = (10%float, lit "Excellent")
  /\ similarity_score (next_down 0.85%float) 10%float = (6%float, lit "Partially correct")
  /\ similarity_score 0.9%float 10%float = (10%float, lit "Excellent")
  /\ similarity_score 0.72%float 10%float = (6%float, lit "Partially correct")
  /\ similarity_score 0.7%float 10%float = (6%float, lit "Partially correct")
  /\ similarity_score (next_down 0.7%float) 10%float
     = (3%float, lit "Attempted but insufficient")
  /\ similarity_score 0.55%float 10%float = (3%float, lit "Attempted but insufficient")
  /\ similarity_score (next_down 0.55%float) 10%float
     = (0%float, lit "Incorrect / off-topic")
  /\ similarity_score nan 10%float = (0%float, lit "Incorrect / off-topic").
Proof. vm_compute. repeat split; reflexivity. Qed.

(** ** The keyword fallback *)

Lemma lower_nil s : lower s = [] -> s = [].
Proof.
  destruct s as [|c r]; [reflexivity|]. unfold lower. simpl.
  unfold lower_char. repeat case_match; discriminate.
Qed.





(** In the handler of an exception that left the scoring loop (here the
    provider returned vectors of different lengths) the feedback does
    read "(fallback evaluation)". *)
Example fallback_in_handler :
  outcomes (evaluate_student
              (env_with None (fun _ _ => ProviderReturns [[1; 1; 1]%float; [1; 1]%float]))
              three_of_five []).1
  = Some [(7%float, lit "Partially correct (fallback evaluation)")].
Proof. vm_compute. reflexivity. Qed.

(** ** The embedding batch *)

(** C5 (as amended): when the provider call raises, [get_embeddings_batch]
    returns one null per input text and does not raise; when the call
    returns, it returns the embeddings of the response in their order,
    as many as the response holds, so its length is the length of the
    input only if the response has that length.  The orchestrator reads
    the positions that a shorter response lacks as null. *)
Theorem get_embeddings_batch_result (create : provider) (texts : list pystr)
    (timeout : Z) :
  let result := get_embeddings_batch create texts timeout in
  match create texts timeout with
  | ProviderRaises =>
      result = replicate (length texts) None
      /\ length result = length texts
      /\ forall k, embedding_at result k = None
  | ProviderReturns data =>
      result = List.map Some data
      /\ length result = length data
      /\ (forall k, (k < length data)%nat -> embedding_at result k = data !! k)
      /\ (forall k, (length data <= k)%nat -> embedding_at result k = None)
  end.
Proof.
  unfold get_embeddings_batch. cbv zeta.
  destruct (create texts timeout) as [|data].
  - split; [reflexivity|]. split; [apply length_replicate|].
    intros k. unfold embedding_at. rewrite length_replicate.
    destruct (Nat.ltb_spec k (length texts)) as [Hk|Hk]; [|reflexivity].
    by rewrite lookup_replicate_2.
  - split; [reflexivity|]. split; [apply length_map|].
    split; intros k Hk; unfold embedding_at; rewrite length_map.
    + apply Nat.ltb_lt in Hk as Hk'. rewrite Hk'.
      change (List.map Some data) with (Some <$> data).
      rewrite list_lookup_fmap.
      destruct (data !! k) eqn:E; [reflexivity|].
      apply lookup_ge_None in E. lia.
    + apply Nat.ltb_ge in Hk. by rewrite Hk.
Qed.

Lemma get_embeddings_batch_result_witness :
  get_embeddings_batch provider_one [lit "a"; lit "b"] 24 = [Some [1; 0]%float]
  /\ embedding_at (get_embeddings_batch provider_one [lit "a"; lit "b"] 24) 0
     = Some [1; 0]%float
  /\ embedding_at (get_embeddings_batch provider_one [lit "a"; lit "b"] 24) 1 = None.
Proof.
  pose proof (get_embeddings_batch_result provider_one [lit "a"; lit "b"] 24) as H.
  cbn [provider_one] in H. cbv zeta in H. destruct H as (H1 & _ & H3 & H4).
  split; [exact H1|]. split.
  - apply (H3 0%nat). simpl. lia.
  - apply (H4 1%nat). simpl. lia.
Defined.

(** C5 (as stated) fails for a response that is shorter than the input:
    the result has the length of the response and holds no null. *)
Lemma get_embeddings_batch_short_response :
  get_embeddings_batch provider_one [lit "a"; lit "b"] 24 = [Some [1; 0]%float]
  /\ length (get_embeddings_batch provider_one [lit "a"; lit "b"] 24)
     <> length [lit "a"; lit "b"]
  /\ get_embeddings_batch provider_one [lit "a"; lit "b"] 24
     <> replicate (length [lit "a"; lit "b"]) None.
Proof. vm_compute. repeat split; [lia|discriminate]. Qed.

(** ** Cosine similarity *)

Lemma SFeqb_zero x : SFeqb x (S754_zero false) = true -> exists s, x = S754_zero s.
Proof.
  unfold SFeqb. destruct x as [s|[]| |[] m e]; cbn [SFcompare]; try discriminate.
  eauto.
Qed.

Lemma finite_spec x :
  finite x = true ->
  (exists s, Prim2SF x = S754_zero s) \/ (exists s m e, Prim2SF x = S754_finite s m e).
Proof.
  unfold finite. rewrite ltb_spec, abs_spec.
  destruct (Prim2SF x) as [s|s| |s m e]; cbn; try discriminate; eauto.
Qed.

Lemma zero_times_finite x y :
  PrimFloat.eqb x 0%float = true -> finite y = true ->
  PrimFloat.eqb (PrimFloat.mul x y) 0%float = true
  /\ PrimFloat.eqb (PrimFloat.mul y x) 0%float = true.
Proof.
  intros Hx Hy. rewrite (mul_comm y x). split;
    rewrite FloatAxioms.eqb_spec in Hx |- *; rewrite mul_spec;
    change (Prim2SF 0%float) with (S754_zero false) in *;
    apply SFeqb_zero in Hx as [sx ->];
    destruct (finite_spec y Hy) as [[sy ->]|(sy & my & ey & ->)]; reflexivity.
Qed.

(** C7 (as amended): [cosine_similarity] returns 0.0 whenever the product
    of the two norms is zero, which is the case when one vector has zero
    magnitude and the norm of the other is finite; otherwise it returns
    the quotient of the dot product by that non-zero product (or the
    error of [np.dot]).  It therefore never divides by zero.  The
    quotient is the cosine up to rounding only. *)
Theorem cosine_similarity_guard (vec1 vec2 : embedding) :
  let denom := PrimFloat.mul (np_norm vec1) (np_norm vec2) in
  (PrimFloat.eqb denom 0%float = true -> cosine_similarity vec1 vec2 = inr 0%float)
  /\ (PrimFloat.eqb denom 0%float = false ->
      cosine_similarity vec1 vec2
      = match np_dot vec1 vec2 with
        | inr d => inr (PrimFloat.div d denom)
        | inl e => inl e
        end)
  /\ (PrimFloat.eqb (np_norm vec1) 0%float = true -> finite (np_norm vec2) = true ->
      cosine_similarity vec1 vec2 = inr 0%float)
  /\ (PrimFloat.eqb (np_norm vec2) 0%float = true -> finite (np_norm vec1) = true ->
      cosine_similarity vec1 vec2 = inr 0%float).
Proof.
  cbv zeta. unfold cosine_similarity. repeat split.
  - intros ->. reflexivity.
  - intros ->. reflexivity.
  - intros H0 Hf. by destruct (zero_times_finite _ _ H0 Hf) as [-> _].
  - intros H0 Hf. by destruct (zero_times_finite _ _ H0 Hf) as [_ ->].
Qed.

Lemma cosine_similarity_guard_witness :
  PrimFloat.eqb (np_norm [0; 0]%float) 0%float = true
  /\ finite (np_norm [3; 4]%float) = true
  /\ cosine_similarity [0; 0]%float [3; 4]%float = inr 0%float.
Proof.
  assert (H0 : PrimFloat.eqb (np_norm [0; 0]%float) 0%float = true)
    by (vm_compute; reflexivity).
  assert (Hf : finite (np_norm [3; 4]%float) = true) by (vm_compute; reflexivity).
  split; [exact H0|]. split; [exact Hf|].
  exact (proj1 (proj2 (proj2 (cosine_similarity_guard [0; 0]%float [3; 4]%float))) H0 Hf).
Defined.

(** C7 (as stated) fails on the range: the similarity of (1, 1, 1) with
    itself is the float above 1.  Every sum in that computation is exact,
    so the order of the additions plays no role. *)
Lemma cosine_similarity_above_one :
  cosine_similarity [1; 1; 1]%float [1; 1; 1]%float = inr 1.0000000000000002%float
  /\ PrimFloat.ltb 1%float 1.0000000000000002%float = true
  /\ PrimFloat.leb 1.0000000000000002%float 1%float = false.
Proof. vm_compute. repeat split; reflexivity. Qed.

(** The guard does not cover a zero vector against a vector whose norm
    overflows, and the evaluator of [mock_test/eval_engine.py] has no
    guard at all: both yield NaN. *)
Example cosine_similarity_nan :
  cosine_similarity [0; 0]%float [1e200; 1e200]%float = inr nan
  /\ MockTest.cosine_similarity [0; 0]%float [3; 4]%float = inr nan.
Proof. vm_compute. split; reflexivity. Qed.

(** ** Objective scoring *)

(** The objective branch of [evaluate_student] compares the stripped,
    lower-cased answers as whole strings. *)
Lemma mcq_score_spec student_ans correct_ans :
  student_ans <> [] -> correct_ans <> [] ->
  mcq_score student_ans correct_ans
  = if PyStr.eqb (lower (strip student_ans)) (lower (strip correct_ans))
    then (1%float, lit "Correct") else (0%float, lit "Incorrect").
Proof.
  intros Hs Hc. unfold mcq_score.
  destruct student_ans; [done|]. destruct correct_ans; [done|].
  cbn [PyStr.truthy negb orb]. by destruct (_ && _).
Qed.

(** The objective branch of [evaluate_mock] awards the marks exactly when
    the two normalized answers are equal. *)
Lemma evaluate_mock_mcq_spec student_answer correct_answer marks :
  strip student_answer <> [] -> strip correct_answer <> [] ->
  evaluate_mock_mcq student_answer correct_answer marks
  = if PyStr.eqb (extract_answer_letter (strip student_answer))
                 (extract_answer_letter (strip correct_answer))
    then (marks, 9989%N :: lit " Correct Answer", true)
    else (0%float, 10060%N :: lit " Incorrect Answer", false).
Proof.
  intros Hs Hc. unfold evaluate_mock_mcq.
  destruct (strip student_answer); [done|]. destruct (strip correct_answer); [done|].
  reflexivity.
Qed.

(** C3: on scenario A (one choice question with maximum marks 1 and
    reference "A", answered "a) option text") [evaluate_student] awards 0
    with feedback "Incorrect", although both answers normalize to "a";
    [evaluate_mock] awards the mark on the same pair. *)
Theorem scenario_a_scored_incorrect :
  outcomes (evaluate_student (env_with None provider_down) scenario_a []).1
  = Some [(0%float, lit "Incorrect")]
  /\ extract_answer_letter (lit "a) option text") = extract_answer_letter (lit "A")
  /\ evaluate_mock_mcq (lit "a) option text") (lit "A") 1%float
     = (1%float, 9989%N :: lit " Correct Answer", true).
Proof. vm_compute. repeat split; reflexivity. Qed.

(** ** Intake *)

Lemma evaluate_student_intake_failure env data store r :
  intake env data = inl r -> evaluate_student env data store = (r, store).
Proof. unfold evaluate_student. by intros ->. Qed.

Lemma intake_failure_is_failure env data r :
  intake env data = inl r -> exists status body, r = Failure status body.
Proof.
  unfold intake, fetch_paper.
  repeat case_match; intros [= <-]; simplify_eq; eauto.
Qed.

(** A successful response comes from a successful intake. *)
Lemma evaluate_student_success env data store id e store' :
  evaluate_student env data store = (Success id e, store') ->
  exists paper answer_map,
    intake env data = inr (paper, answer_map)
    /\ fetch_paper env data = inr (Some paper)
    /\ e = build_evaluation env data paper answer_map
    /\ id = eval_id e
    /\ store' = save_evaluation env e store.
Proof.
  unfold evaluate_student.
  destruct (intake env data) as [r|[paper answer_map]] eqn:Hi.
  - apply intake_failure_is_failure in Hi as (? & ? & ->). discriminate.
  - intros [= <- <- <-]. exists paper, answer_map.
    repeat split; try reflexivity.
    unfold intake in Hi. repeat case_match; simplify_eq; reflexivity.
Qed.

(** C6 (as amended): a request that gives a paper id and no inline paper
    fails with 404 when the paper store is connected and its lookup
    returns no document, and with 400 when the store is not connected; a
    resolved paper without questions, or a request without answers,
    fails with 400.  In each case the evaluations collection is left as
    it was and the response carries no evaluation. *)
Theorem intake_failure_semantics (env : Env) (data : Request)
    (store : list EvaluationRecord) :
  (forall collection,
     r_paper data = None -> opt_truthy (r_paper_id data) = true ->
     papers_collection env = Some collection ->
     lookup_paper collection data = inr None ->
     evaluate_student env data store = (Failure 404 PaperIdNotFound, store))
  /\ (r_paper data = None -> papers_collection env = None ->
      evaluate_student env data store = (Failure 400 NoPaperProvided, store))
  /\ (forall paper,
      fetch_paper env data = inr (Some paper) -> p_questions paper = [] ->
      evaluate_student env data store = (Failure 400 PaperHasNoQuestions, store))
  /\ (forall paper,
      fetch_paper env data = inr (Some paper) -> r_answers data = [] ->
      exists body, evaluate_student env data store = (Failure 400 body, store)).
Proof.
  repeat split.
  - intros collection Hp Hid Hc Hl.
    apply evaluate_student_intake_failure.
    unfold intake, fetch_paper. rewrite Hp, Hid, Hc.
    unfold lookup_paper in Hl.
    destruct (mongo_operation_with_retry _ _) as [|found]; [discriminate|].
    injection Hl as ->. reflexivity.
  - intros Hp Hc. apply evaluate_student_intake_failure.
    unfold intake, fetch_paper. rewrite Hp, Hc.
    by destruct (opt_truthy _).
  - intros paper Hf Hq. apply evaluate_student_intake_failure.
    unfold intake. by rewrite Hf, Hq.
  - intros paper Hf Ha.
    destruct (p_questions paper) as [|q qs] eqn:Hq.
    + exists PaperHasNoQuestions. apply evaluate_student_intake_failure.
      unfold intake. by rewrite Hf, Hq.
    + exists NoAnswersProvided. apply evaluate_student_intake_failure.
      unfold intake. by rewrite Hf, Hq, Ha.
Qed.

Lemma intake_failure_semantics_witness :
  r_paper by_unknown_paper_id = None
  /\ opt_truthy (r_paper_id by_unknown_paper_id) = true
  /\ lookup_paper one_paper_store by_unknown_paper_id = inr None
  /\ evaluate_student (env_with (Some one_paper_store) provider_down)
       by_unknown_paper_id []
     = (Failure 404 PaperIdNotFound, []).
Proof.
  split; [reflexivity|]. split; [reflexivity|]. split; [reflexivity|].
  apply (proj1 (intake_failure_semantics
                  (env_with (Some one_paper_store) provider_down)
                  by_unknown_paper_id []) one_paper_store); reflexivity.
Defined.

(** C6 (as stated) fails when the service runs without a connection to
    the paper store: a request with a paper id and no inline paper is
    answered 400, not 404. *)
Lemma paper_id_without_store :
  r_paper by_paper_id = None
  /\ opt_truthy (r_paper_id by_paper_id) = true
  /\ evaluate_student (env_with None provider_down) by_paper_id []
     = (Failure 400 NoPaperProvided, [])
  /\ evaluate_student (env_with None provider_down) by_paper_id []
     <> (Failure 404 PaperIdNotFound, []).
Proof. repeat split; try reflexivity. discriminate. Qed.

(** A stored paper is found and evaluated; a lookup whose attempts all
    end in a connection error is answered 500. *)
Example paper_lookup_outcomes :
  outcomes (evaluate_student (env_with (Some one_paper_store) provider_down)
              by_paper_id []).1
  = Some [(1%float, lit "Correct")]
  /\ evaluate_student (env_with (Some (fun _ _ => DbConnectionError)) provider_down)
       by_paper_id []
     = (Failure 500 DatabaseConnectionError, []).
Proof. vm_compute. split; reflexivity. Qed.

(** ** Aggregation *)

(** C8: in every completed evaluation the total awarded is the sum of the
    awarded marks of the details; the total maximum is the total the
    paper declares or, without one, the sum of the question marks; and
    the percentage is [round(100 * (total_awarded / total_max), 2)] for a
    non-zero total maximum and 0.0 for a zero one. *)
Theorem totals_and_percentage (env : Env) (data : Request)
    (store store' : list EvaluationRecord) (id : pystr) (e : EvaluationRecord) :
  evaluate_student env data store = (Success id e, store') ->
  exists paper,
    fetch_paper env data = inr (Some paper)
    /\ total_score e = sum (List.map d_score_awarded (details e))
    /\ total_marks e
       = match p_total_marks paper with
         | Some declared => declared
         | None => sum (List.map marks_of (p_questions paper))
         end
    /\ (PrimFloat.eqb (total_marks e) 0%float = false ->
        percentage e
        = round 2 (PrimFloat.mul 100%float
                     (PrimFloat.div (total_score e) (total_marks e))))
    /\ (PrimFloat.eqb (total_marks e) 0%float = true -> percentage e = 0%float).
Proof.
  intros (paper & answer_map & _ & Hf & -> & _)%evaluate_student_success.
  exists paper. split; [exact Hf|].
  cbn [build_evaluation total_score total_marks percentage details].
  split; [reflexivity|].
  split; [unfold total_marks_of; by destruct (p_total_marks paper)|].
  unfold percentage_of, truthy. rewrite (mul_comm 100%float).
  split; intros ->; reflexivity.
Qed.

Lemma totals_and_percentage_witness :
  evaluate_student (env_with None provider_down) fractional_index []
  = (Success (eval_id fractional_index_evaluation) fractional_index_evaluation,
     [fractional_index_evaluation])
  /\ total_score fractional_index_evaluation
     = sum (List.map d_score_awarded (details fractional_index_evaluation))
  /\ total_score fractional_index_evaluation = 4%float
  /\ total_marks fractional_index_evaluation = 7%float
  /\ percentage fractional_index_evaluation = 57.14%float.
Proof.
  assert (H : evaluate_student (env_with None provider_down) fractional_index []
              = (Success (eval_id fractional_index_evaluation)
                   fractional_index_evaluation, [fractional_index_evaluation]))
    by (vm_compute; reflexivity).
  split; [exact H|].
  destruct (totals_and_percentage _ _ _ _ _ _ H) as (paper & _ & Hs & _).
  split; [exact Hs|]. vm_compute. repeat split; reflexivity.
Defined.

(** ** The first pass *)

Lemma first_pass_step_spec answer_map st idx q :
  first_pass_step answer_map st idx q
  = {| subj_texts :=
         subj_texts st
         ++ (if is_mcq_type (type_of q) then []
             else [default [] (answer_map !! idx); correct_answer_of q]);
       subj_q_indices :=
         subj_q_indices st ++ (if is_mcq_type (type_of q) then [] else [idx]);
       split_details := split_details st ++ [first_pass_detail answer_map idx q] |}.
Proof.
  unfold first_pass_step, first_pass_detail.
  destruct (is_mcq_type (type_of q)).
  - destruct (mcq_score _ _). by rewrite !app_nil_r.
  - reflexivity.
Qed.

Lemma first_pass_details answer_map st idx questions :
  split_details (first_pass answer_map st idx questions)
  = split_details st ++ details_from answer_map idx questions.
Proof.
  revert st idx. induction questions as [|q rest IH]; intros st idx; simpl.
  - by rewrite app_nil_r.
  - rewrite IH, first_pass_step_spec. cbn [split_details].
    by rewrite <- app_assoc.
Qed.

Lemma first_pass_indices answer_map st idx questions :
  subj_q_indices (first_pass answer_map st idx questions)
  = subj_q_indices st ++ subjective_from idx questions.
Proof.
  revert st idx. induction questions as [|q rest IH]; intros st idx; simpl.
  - by rewrite app_nil_r.
  - rewrite IH, first_pass_step_spec. cbn [subj_q_indices].
    rewrite <- app_assoc. by destruct (is_mcq_type (type_of q)).
Qed.


Lemma details_from_lookup answer_map idx questions (k : nat) :
  details_from answer_map idx questions !! k
  = first_pass_detail answer_map (idx + Z.of_nat k) <$> questions !! k.
Proof.
  revert idx k. induction questions as [|q rest IH]; intros idx k; [done|].
  destruct k as [|k]; simpl.
  - by rewrite Z.add_0_r.
  - rewrite IH. do 2 f_equal. lia.
Qed.

Lemma details_from_length answer_map idx questions :
  length (details_from answer_map idx questions) = length questions.
Proof. revert idx. induction questions; intros; simpl; auto. Qed.

Lemma details_from_indexed answer_map questions :
  indexed (details_from answer_map 1 questions).
Proof.
  intros k d. rewrite details_from_lookup.
  destruct (questions !! k); [|done]. by intros [= <-].
Qed.

Lemma subjective_from_elem idx questions (k : nat) q :
  questions !! k = Some q -> is_mcq_type (type_of q) = false ->
  idx + Z.of_nat k ∈ subjective_from idx questions.
Proof.
  revert idx k. induction questions as [|q' rest IH]; intros idx k; [done|].
  destruct k as [|k].
  - simpl. intros [= ->] ->. rewrite Z.add_0_r. left.
  - replace (idx + Z.of_nat (S k)) with (idx + 1 + Z.of_nat k) by lia.
    simpl. intros Hk Hq.
    destruct (is_mcq_type (type_of q')); [|right]; by apply IH.
Qed.

(** ** The scoring loop *)

Lemma find_detail_Some q_idx details k d :
  find_detail q_idx details = Some (k, d) ->
  details !! k = Some d /\ d_q_index d = q_idx.
Proof. unfold find_detail. intros (? & ? & _)%list_find_Some. done. Qed.

Lemma find_detail_indexed details (k : nat) d :
  indexed details -> details !! k = Some d ->
  find_detail (1 + Z.of_nat k) details = Some (k, d).
Proof.
  intros Hi Hk. unfold find_detail. apply list_find_Some.
  split; [exact Hk|]. split; [by apply Hi|].
  intros j y Hj Hlt Hy. apply Hi in Hj. lia.
Qed.

Lemma same_question_refl d : same_question d d.
Proof. by repeat split. Qed.

Lemma same_question_trans d1 d2 d3 :
  same_question d1 d2 -> same_question d2 d3 -> same_question d1 d3.
Proof. unfold same_question. intuition congruence. Qed.

Lemma same_question_set_score d r : same_question d (set_score d r).
Proof. by repeat split. Qed.

Lemma same_question_fallback labels d : same_question d (apply_fallback labels d).
Proof. apply same_question_set_score. Qed.

Lemma same_question_score_pair se ce d d' :
  score_pair se ce d = inr d' -> same_question d d'.
Proof.
  unfold score_pair. destruct se, ce;
    try (intros [= <-]; apply same_question_fallback).
  destruct (cosine_similarity _ _); [discriminate|].
  intros [= <-]. by repeat split.
Qed.

Lemma same_questions_refl details : Forall2 same_question details details.
Proof. induction details; constructor; auto using same_question_refl. Qed.

Lemma same_questions_trans l1 l2 l3 :
  Forall2 same_question l1 l2 -> Forall2 same_question l2 l3 ->
  Forall2 same_question l1 l3.
Proof. apply Forall2_trans, same_question_trans. Qed.

Lemma same_questions_insert details (k : nat) d d' :
  details !! k = Some d -> same_question d d' ->
  Forall2 same_question details (<[k := d']> details).
Proof.
  intros Hk Hd. rewrite <- (list_insert_id details k d Hk) at 1.
  apply Forall2_insert; [apply same_questions_refl|exact Hd].
Qed.

Lemma same_questions_score_step embeddings i q_idx details details' :
  score_step embeddings i q_idx details = inr details' ->
  Forall2 same_question details details'.
Proof.
  unfold score_step.
  destruct (find_detail q_idx details) as [[k d]|] eqn:Ef.
  - destruct (score_pair _ _ d) as [|d'] eqn:Ep; [discriminate|].
    intros [= <-]. apply find_detail_Some in Ef as [Hk _].
    eapply same_questions_insert; eauto using same_question_score_pair.
  - intros [= <-]. apply same_questions_refl.
Qed.

Lemma same_questions_score_loop embeddings i q_indices details :
  Forall2 same_question details (score_loop embeddings i q_indices details).1.
Proof.
  revert i details. induction q_indices as [|q rest IH]; intros i details; simpl.
  - apply same_questions_refl.
  - destruct (score_step embeddings i q details) as [|details'] eqn:E.
    + apply same_questions_refl.
    + eapply same_questions_trans; [|apply IH].
      eapply same_questions_score_step, E.
Qed.

Lemma same_questions_fallback_loop q_indices details :
  Forall2 same_question details (fallback_loop q_indices details).
Proof.
  revert details. induction q_indices as [|q rest IH]; intros details; simpl.
  - apply same_questions_refl.
  - destruct (find_detail q details) as [[k d]|] eqn:Ef; [|apply IH].
    eapply same_questions_trans; [|apply IH].
    apply find_detail_Some in Ef as [Hk _].
    eapply same_questions_insert; eauto using same_question_fallback.
Qed.

(** Scoring rewrites awards, feedback and similarity only: the details
    keep their number, their order and their question. *)
Lemma same_questions_score_subjective create st :
  Forall2 same_question (split_details st) (score_subjective create st).
Proof.
  unfold score_subjective. destruct (subj_texts st); [apply same_questions_refl|].
  pose proof (same_questions_score_loop
                (get_embeddings_batch create (p :: l) (batch_timeout (p :: l)))
                0 (subj_q_indices st) (split_details st)) as H.
  destruct (score_loop _ _ _ _) as [details [e|]]; [|exact H].
  eapply same_questions_trans; [exact H|apply same_questions_fallback_loop].
Qed.

(** ** The answer map *)

Lemma answer_map_step_index_of answer_map a answer_map' :
  answer_map_step answer_map a = inr answer_map' ->
  answer_map'
  = match index_of a with
    | Some n => <[n := str_or_empty (a_student_answer a)]> answer_map
    | None => answer_map
    end.
Proof.
  unfold answer_map_step, index_of.
  destruct (py_int _) as [[]|n]; try (intros [= <-]; reflexivity); try discriminate.
  destruct (0 <? n); by intros [= <-].
Qed.

(** The map holds, for every index, the last answer filed under it. *)
Lemma build_answer_map_lookup answers answer_map answer_map' n :
  build_answer_map answer_map answers = inr answer_map' ->
  answer_map' !! n
  = match answer_for n answers with
    | Some text => Some text
    | None => answer_map !! n
    end.
Proof.
  revert answer_map. induction answers as [|a rest IH]; intros answer_map; simpl.
  - by intros [= <-].
  - destruct (answer_map_step answer_map a) as [|m1] eqn:E; [discriminate|].
    intros H. rewrite (IH _ H).
    destruct (answer_for n rest); [reflexivity|].
    rewrite (answer_map_step_index_of _ _ _ E).
    destruct (index_of a) as [n'|] eqn:En.
    + case_bool_decide as Hd.
      * injection Hd as ->. by rewrite lookup_insert_eq.
      * rewrite lookup_insert_ne; [reflexivity|congruence].
    + by case_bool_decide.
Qed.

(** How [index_of] reads the values a client can send as [q_index]. *)
Example index_of_values :
  index_of {| a_q_index := None; a_student_answer := Some (lit "x") |} = None
  /\ index_of (answer JNull "x") = None
  /\ index_of (answer (JInt 0) "x") = None
  /\ index_of (answer (JInt (-3)) "x") = None
  /\ index_of (answer (JStr (lit "two")) "x") = None
  /\ index_of (answer (JFloat nan) "x") = None
  /\ index_of (answer (JFloat 0.5%float) "x") = None
  /\ index_of (answer JArray "x") = None
  /\ index_of (answer (JInt 2) "x") = Some 2
  /\ index_of (answer (JFloat 2.5%float) "x") = Some 2
  /\ index_of (answer (JStr (lit " 2 ")) "x") = Some 2
  /\ index_of (answer (JBool true) "x") = Some 1.
Proof. vm_compute. repeat split; reflexivity. Qed.

(** An infinite [q_index] makes [int] raise an OverflowError, which the
    loop does not catch: the request is answered 500. *)
Example infinite_index_fails :
  evaluate_student (env_with None provider_down)
    (inline_request [question "mcq" "A" 1%float]
                    [answer (JFloat PrimFloat.infinity) "A"]) []
  = (Failure 500 (EvaluationFailed OverflowError), []).
Proof. vm_compute. reflexivity. Qed.

Lemma intake_success env data paper answer_map :
  intake env data = inr (paper, answer_map) ->
  fetch_paper env data = inr (Some paper)
  /\ p_questions paper <> [] /\ r_answers data <> []
  /\ build_answer_map ∅ (r_answers data) = inr answer_map.
Proof.
  unfold intake.
  destruct (fetch_paper env data) as [|[p|]]; try discriminate.
  destruct (p_questions p) eqn:Eq; [discriminate|].
  destruct (r_answers data) eqn:Ea; [discriminate|].
  destruct (build_answer_map _ _) eqn:Eb; [discriminate|].
  intros [= <- <-]. rewrite Eq. done.
Qed.

(** ** Stored indices are not read *)

Lemma first_pass_renumbered f answer_map st idx questions :
  first_pass answer_map st idx (List.map (with_q_id f) questions)
  = first_pass answer_map st idx questions.
Proof.
  revert st idx. induction questions as [|q rest IH]; intros st idx; [done|].
  simpl. rewrite IH. reflexivity.
Qed.

Lemma build_evaluation_renumbered f env data paper answer_map :
  build_evaluation env data (renumbered f paper) answer_map
  = build_evaluation env data paper answer_map.
Proof.
  unfold build_evaluation, total_marks_of. cbn [renumbered p_questions p_title p_total_marks].
  rewrite first_pass_renumbered, map_map. reflexivity.
Qed.

(** ** Questions and answers are matched by position *)

(** C10 (as amended): in every completed evaluation the details are one
    per question, in paper order; the detail at position [i] (from 1) has
    [q_index = i] and the text, reference answer and marks of the [i]-th
    question, whatever index the question object stores; its student
    answer is the text of the last submitted answer whose [int(q_index)]
    succeeds with the value [i], and the empty string if there is none.
    An answer is dropped when its [q_index] is absent or null, when
    [int] raises a ValueError or TypeError on it, or when the result is
    not positive; a fractional number is truncated and a numeric string
    is parsed. *)
Theorem details_follow_positions (env : Env) (data : Request)
    (store store' : list EvaluationRecord) (id : pystr) (e : EvaluationRecord) :
  evaluate_student env data store = (Success id e, store') ->
  exists paper answer_map,
    intake env data = inr (paper, answer_map)
    /\ length (details e) = length (p_questions paper)
    /\ (forall (k : nat) q,
        p_questions paper !! k = Some q ->
        exists d,
          details e !! k = Some d
          /\ d_q_index d = 1 + Z.of_nat k
          /\ d_question d = q_question q
          /\ d_correct_answer d = correct_answer_of q
          /\ d_marks d = marks_of q
          /\ d_student_answer d
             = default [] (answer_for (1 + Z.of_nat k) (r_answers data)))
    /\ (forall f, build_evaluation env data (renumbered f paper) answer_map = e).
Proof.
  intros (paper & answer_map & Hi & _ & -> & _)%evaluate_student_success.
  exists paper, answer_map. split; [exact Hi|].
  apply intake_success in Hi as (_ & _ & _ & Hm).
  pose proof (same_questions_score_subjective (embeddings_create env)
                (first_pass answer_map empty_split 1 (p_questions paper))) as HF.
  rewrite first_pass_details in HF. cbn [empty_split split_details app] in HF.
  cbn [build_evaluation details].
  split; [|split].
  - apply Forall2_length in HF. by rewrite <- HF, details_from_length.
  - intros k q Hk.
    eapply Forall2_lookup_l in HF as (d & Hd & Hs);
      [|by rewrite details_from_lookup, Hk].
    exists d. split; [exact Hd|].
    destruct Hs as (H1 & H2 & _ & H4 & H5 & H6).
    cbn [first_pass_detail d_q_index d_question d_marks d_student_answer
         d_correct_answer] in *.
    rewrite <- H1, <- H2, <- H4, <- H5, <- H6.
    repeat split; try reflexivity.
    pose proof (build_answer_map_lookup _ _ _ (1 + Z.of_nat k) Hm) as E.
    rewrite lookup_empty in E.
    etransitivity; [exact (f_equal (default []) E)|].
    by destruct (answer_for _ _).
  - intros f. apply build_evaluation_renumbered.
Qed.

Lemma details_follow_positions_witness :
  evaluate_student (env_with None provider_down) fractional_index []
  = (Success (eval_id fractional_index_evaluation) fractional_index_evaluation,
     [fractional_index_evaluation])
  /\ length (details fractional_index_evaluation) = 2%nat
  /\ exists d,
       details fractional_index_evaluation !! 1%nat = Some d
       /\ d_q_index d = 2
       /\ d_student_answer d = lit "B".
Proof.
  assert (H : evaluate_student (env_with None provider_down) fractional_index []
              = (Success (eval_id fractional_index_evaluation)
                   fractional_index_evaluation, [fractional_index_evaluation]))
    by (vm_compute; reflexivity).
  split; [exact H|].
  destruct (details_follow_positions _ _ _ _ _ _ H)
    as (paper & answer_map & Hi & Hl & Hd & _).
  assert (Hp : paper = {| p_title := Some (lit "Operating Systems");
                          p_questions := [question "Short" "a process is a program in execution" 5%float;
                                          question "mcq" "b" 2%float];
                          p_total_marks := None |}).
  { vm_compute in Hi. by injection Hi as <- _. }
  subst paper. split; [exact Hl|].
  destruct (Hd 1%nat _ eq_refl) as (d & Hk & Hq & _ & _ & _ & Ha).
  exists d. split; [exact Hk|]. split; [exact Hq|]. rewrite Ha.
  vm_compute. reflexivity.
Defined.

(** C10 (as stated) fails for a fractional [q_index]: the answer indexed
    2.5 is not dropped, it is filed under question 2, which is scored
    against it. *)
Lemma fractional_index_not_dropped :
  List.map a_q_index (r_answers fractional_index)
  = [Some (JInt 1); Some (JFloat 2.5%float)]
  /\ (evaluate_student (env_with None provider_down) fractional_index []).1
     = Success (eval_id fractional_index_evaluation) fractional_index_evaluation
  /\ List.map (fun d => (d_q_index d, d_student_answer d, d_feedback d))
       (details fractional_index_evaluation)
     = [(1, lit "a running program", lit "Attempted (evaluated without AI)");
        (2, lit "B", lit "Correct")]
  /\ lit "B" <> [].
Proof. vm_compute. repeat split; try reflexivity. discriminate. Qed.

(** ** Scoring under a provider outage *)




Section UpdateDetail.
Variable g : Detail -> Detail.
Hypothesis g_index : forall d, d_q_index (g d) = d_q_index d.
Hypothesis g_idem : forall d, g (g d) = g d.

Lemma update_detail_lookup details q_idx (k : nat) :
  indexed details ->
  update_detail g details q_idx !! k
  = if bool_decide (q_idx = 1 + Z.of_nat k) then g <$> details !! k
    else details !! k.
Proof.
  intros Hi. unfold update_detail.
  destruct (find_detail q_idx details) as [[j d]|] eqn:Ef.
  - apply find_detail_Some in Ef as [Hj Hq].
    pose proof (Hi _ _ Hj) as Hjq.
    destruct (decide (j = k)) as [->|Hne].
    + rewrite bool_decide_eq_true_2 by congruence.
      rewrite list_lookup_insert_eq by (by eapply lookup_lt_Some).
      by rewrite Hj.
    + rewrite bool_decide_eq_false_2 by lia.
      by rewrite list_lookup_insert_ne.
  - case_bool_decide as Hq; [|reflexivity].
    destruct (details !! k) as [d|] eqn:Hk; [|reflexivity].
    rewrite Hq, (find_detail_indexed _ _ _ Hi Hk) in Ef. discriminate.
Qed.

Lemma update_detail_indexed details q_idx :
  indexed details -> indexed (update_detail g details q_idx).
Proof.
  intros Hi k d. rewrite (update_detail_lookup _ _ _ Hi).
  case_bool_decide; [|apply Hi].
  destruct (details !! k) as [d0|] eqn:Hk; [|done].
  intros [= <-]. rewrite g_index. by apply Hi.
Qed.

Lemma foldl_update_detail_lookup q_indices details (k : nat) :
  indexed details ->
  foldl (update_detail g) details q_indices !! k
  = if bool_decide (1 + Z.of_nat k ∈ q_indices) then g <$> details !! k
    else details !! k.
Proof.
  revert details. induction q_indices as [|q rest IH]; intros details Hi;
    cbn [foldl].
  - rewrite bool_decide_eq_false_2; [reflexivity|]. apply not_elem_of_nil.
  - rewrite IH by (by apply update_detail_indexed).
    rewrite (update_detail_lookup _ _ _ Hi).
    destruct (decide (q = 1 + Z.of_nat k)) as [->|Hne].
    + rewrite (bool_decide_eq_true_2 (_ = _)) by reflexivity.
      rewrite (bool_decide_eq_true_2 (_ ∈ _ :: _)) by left.
      destruct (details !! k); simpl; [|by case_bool_decide].
      rewrite g_idem. by case_bool_decide.
    + rewrite (bool_decide_eq_false_2 (_ = _)) by done.
      destruct (decide (1 + Z.of_nat k ∈ rest)) as [Hin|Hnin].
      * rewrite !bool_decide_eq_true_2; [reflexivity|by right|done].
      * rewrite !bool_decide_eq_false_2; [reflexivity| |done].
        intros [?|?]%elem_of_cons; [congruence|done].
Qed.
End UpdateDetail.




(** * Further properties of the service *)

(** ** Retries of a store operation *)

Lemma retry_loop_returns {A} (operation : nat -> db_outcome A) start remaining a :
  retry_loop operation start remaining = inr (Some a) <->
  exists j, (j < remaining)%nat /\ operation (start + j)%nat = DbReturns a
            /\ forall i, (i < j)%nat -> operation (start + i)%nat = DbConnectionError.
Proof.
  revert start. induction remaining as [|r IH]; intros start; simpl.
  - split; [discriminate|]. intros (j & Hj & _). lia.
  - destruct (operation start) as [a'| |] eqn:E.
    + split.
      * intros [= ->]. exists 0%nat. rewrite Nat.add_0_r.
        split; [lia|]. split; [exact E|]. intros i Hi. lia.
      * intros (j & Hj & Hr & Hc). destruct j as [|j].
        -- rewrite Nat.add_0_r in Hr. congruence.
        -- specialize (Hc 0%nat ltac:(lia)). rewrite Nat.add_0_r in Hc. congruence.
    + destruct r as [|r'].
      * split; [discriminate|]. intros (j & Hj & Hr & _).
        assert (j = 0%nat) as -> by lia. rewrite Nat.add_0_r in Hr. congruence.
      * rewrite IH. split.
        -- intros (j & Hj & Hr & Hc). exists (S j).
           split; [lia|]. split; [by rewrite <- Nat.add_succ_comm|].
           intros [|i] Hi; [by rewrite Nat.add_0_r|].
           rewrite <- Nat.add_succ_comm. apply Hc. lia.
        -- intros (j & Hj & Hr & Hc). destruct j as [|j].
           ++ rewrite Nat.add_0_r in Hr. congruence.
           ++ exists j. split; [lia|]. split; [by rewrite Nat.add_succ_comm|].
              intros i Hi. rewrite Nat.add_succ_comm. apply Hc. lia.
    + split; [discriminate|]. intros (j & Hj & Hr & Hc). destruct j as [|j].
      * rewrite Nat.add_0_r in Hr. congruence.
      * specialize (Hc 0%nat ltac:(lia)). rewrite Nat.add_0_r in Hc. congruence.
Qed.

Lemma retry_loop_raises {A} (operation : nat -> db_outcome A) start remaining :
  retry_loop operation start remaining = inl tt <->
  (exists j, (j < remaining)%nat /\ operation (start + j)%nat = DbOtherError
             /\ forall i, (i < j)%nat -> operation (start + i)%nat = DbConnectionError)
  \/ ((0 < remaining)%nat
      /\ forall i, (i < remaining)%nat -> operation (start + i)%nat = DbConnectionError).
Proof.
  revert start. induction remaining as [|r IH]; intros start; simpl.
  - split; [discriminate|]. intros [(j & Hj & _)|[Hr _]]; lia.
  - destruct (operation start) as [a'| |] eqn:E.
    + split; [discriminate|].
      intros [(j & Hj & Hr & Hc)|[_ Hc]].
      * destruct j as [|j].
        -- rewrite Nat.add_0_r in Hr. congruence.
        -- specialize (Hc 0%nat ltac:(lia)). rewrite Nat.add_0_r in Hc. congruence.
      * specialize (Hc 0%nat ltac:(lia)). rewrite Nat.add_0_r in Hc. congruence.
    + destruct r as [|r'].
      * split; [|reflexivity]. intros _. right. split; [lia|].
        intros i Hi. assert (i = 0%nat) as -> by lia. by rewrite Nat.add_0_r.
      * rewrite IH. split.
        -- intros [(j & Hj & Hr & Hc)|[_ Hc]].
           ++ left. exists (S j). split; [lia|].
              split; [by rewrite <- Nat.add_succ_comm|].
              intros [|i] Hi; [by rewrite Nat.add_0_r|].
              rewrite <- Nat.add_succ_comm. apply Hc. lia.
           ++ right. split; [lia|].
              intros [|i] Hi; [by rewrite Nat.add_0_r|].
              rewrite <- Nat.add_succ_comm. apply Hc. lia.
        -- intros [(j & Hj & Hr & Hc)|[_ Hc]].
           ++ left. destruct j as [|j].
              ** rewrite Nat.add_0_r in Hr. congruence.
              ** exists j. split; [lia|]. split; [by rewrite Nat.add_succ_comm|].
                 intros i Hi. rewrite Nat.add_succ_comm. apply Hc. lia.
           ++ right. split; [lia|]. intros i Hi.
              rewrite Nat.add_succ_comm. apply Hc. lia.
    + split; [|reflexivity]. intros _. left. exists 0%nat.
      rewrite Nat.add_0_r. split; [lia|]. split; [exact E|]. intros i Hi. lia.
Qed.

(** X1: [mongo_operation_with_retry] returns the result of the first
    attempt that does not end in a connection error, provided that
    attempt is among the first [max_retries] and returns; it raises when
    that attempt fails with another error, or when all [max_retries]
    attempts end in a connection error; it never makes more than
    [max_retries] attempts, and with [max_retries = 0] it makes none and
    returns [None]. *)
Theorem retry_until_settled {A} (operation : nat -> db_outcome A)
    (max_retries : nat) :
  (forall a,
     mongo_operation_with_retry operation max_retries = inr (Some a) <->
     exists j, (j < max_retries)%nat /\ operation j = DbReturns a
               /\ forall i, (i < j)%nat -> operation i = DbConnectionError)
  /\ (mongo_operation_with_retry operation max_retries = inl tt <->
      (exists j, (j < max_retries)%nat /\ operation j = DbOtherError
                 /\ forall i, (i < j)%nat -> operation i = DbConnectionError)
      \/ ((0 < max_retries)%nat
          /\ forall i, (i < max_retries)%nat -> operation i = DbConnectionError))
  /\ (mongo_operation_with_retry operation max_retries = inr None <->
      max_retries = 0%nat).
Proof.
  unfold mongo_operation_with_retry. split; [|split].
  - intros a. apply (retry_loop_returns operation 0).
  - apply (retry_loop_raises operation 0).
  - split.
    + destruct (retry_loop operation 0 max_retries) as [[]|[a|]] eqn:E;
        try discriminate. intros _.
      destruct max_retries as [|n]; [reflexivity|]. exfalso.
      revert E. generalize 0%nat. induction n as [|n IH]; intros s; simpl.
      * destruct (operation s); discriminate.
      * destruct (operation s); try discriminate. apply IH.
    + intros ->. reflexivity.
Qed.

Lemma retry_until_settled_witness :
  (2 < 3)%nat /\ third_time_lucky 2 = DbReturns 7
  /\ (forall i, (i < 2)%nat -> third_time_lucky i = DbConnectionError)
  /\ mongo_operation_with_retry third_time_lucky 3 = inr (Some 7)
  /\ mongo_operation_with_retry third_time_lucky 2 = inl tt.
Proof.
  assert (Hc : forall i, (i < 2)%nat -> third_time_lucky i = DbConnectionError).
  { intros i Hi. unfold third_time_lucky.
    by destruct (Nat.ltb_spec i 2); [|lia]. }
  split; [lia|]. split; [reflexivity|]. split; [exact Hc|]. split.
  - apply (proj1 (retry_until_settled third_time_lucky 3) 7).
    exists 2%nat. split; [lia|]. split; [reflexivity|exact Hc].
  - apply (proj1 (proj2 (retry_until_settled third_time_lucky 2))).
    right. split; [lia|exact Hc].
Defined.

(** ** Failed requests and persistence *)









(** ** The scoring loop on an arbitrary provider response *)

Lemma subjective_from_inv idx questions n :
  n ∈ subjective_from idx questions ->
  exists (k : nat) q,
    n = idx + Z.of_nat k /\ questions !! k = Some q
    /\ is_mcq_type (type_of q) = false.
Proof.
  revert idx. induction questions as [|q rest IH]; intros idx; simpl.
  - by intros ?%elem_of_nil.
  - destruct (is_mcq_type (type_of q)) eqn:E.
    + intros (k & q' & -> & Hk & Hq)%IH. exists (S k), q'.
      split; [lia|]. done.
    + intros [->|(k & q' & -> & Hk & Hq)%IH]%elem_of_cons.
      * exists 0%nat, q. split; [lia|]. done.
      * exists (S k), q'. split; [lia|]. done.
Qed.

Lemma subjective_from_NoDup idx questions : NoDup (subjective_from idx questions).
Proof.
  revert idx. induction questions as [|q rest IH]; intros idx; simpl.
  - constructor.
  - destruct (is_mcq_type (type_of q)); [apply IH|].
    constructor; [|apply IH].
    intros (k & _ & Hk & _)%subjective_from_inv. lia.
Qed.

Lemma pair_result_index embeddings i d :
  d_q_index (pair_result embeddings i d) = d_q_index d.
Proof.
  unfold pair_result. destruct (score_pair _ _ d) eqn:E; [reflexivity|].
  apply same_question_score_pair in E. symmetry. apply E.
Qed.

Lemma score_step_update embeddings i q_idx details details' :
  score_step embeddings i q_idx details = inr details' ->
  details' = update_detail (pair_result embeddings i) details q_idx.
Proof.
  unfold score_step, update_detail, pair_result.
  destruct (find_detail q_idx details) as [[k d]|]; [|by intros [= <-]].
  destruct (score_pair _ _ d); [discriminate|]. by intros [= <-].
Qed.


Lemma score_loop_indexed embeddings i q_indices details :
  indexed details -> indexed (score_loop embeddings i q_indices details).1.
Proof.
  intros Hi k d Hk.
  pose proof (same_questions_score_loop embeddings i q_indices details) as HF.
  eapply Forall2_lookup_r in HF as (d0 & Hd0 & Hs); [|exact Hk].
  destruct Hs as [<- _]. by apply Hi.
Qed.

(** The loop writes only to the details of the indices it is given. *)
Lemma score_loop_untouched embeddings i q_indices details (k : nat) :
  indexed details -> 1 + Z.of_nat k ∉ q_indices ->
  (score_loop embeddings i q_indices details).1 !! k = details !! k.
Proof.
  revert i details. induction q_indices as [|q rest IH]; intros i details Hi Hn;
    simpl; [reflexivity|].
  apply not_elem_of_cons in Hn as [Hq Hrest].
  destruct (score_step embeddings i q details) as [|details'] eqn:E;
    [reflexivity|].
  apply score_step_update in E as ->.
  rewrite IH; [|apply update_detail_indexed; auto using pair_result_index|done].
  rewrite update_detail_lookup by done.
  by rewrite bool_decide_eq_false_2 by congruence.
Qed.

Lemma fallback_loop_foldl q_indices details :
  fallback_loop q_indices details
  = foldl (update_detail (apply_fallback fallback_evaluation)) details q_indices.
Proof.
  revert details. induction q_indices as [|q rest IH]; intros details; simpl;
    [reflexivity|].
  unfold update_detail at 2.
  destruct (find_detail q details) as [[k d]|]; apply IH.
Qed.

Lemma apply_fallback_index labels d : d_q_index (apply_fallback labels d) = d_q_index d.
Proof. reflexivity. Qed.

Lemma apply_fallback_idem labels d :
  apply_fallback labels (apply_fallback labels d) = apply_fallback labels d.
Proof. reflexivity. Qed.

Lemma score_subjective_untouched create st (k : nat) :
  indexed (split_details st) -> 1 + Z.of_nat k ∉ subj_q_indices st ->
  score_subjective create st !! k = split_details st !! k.
Proof.
  intros Hi Hn. unfold score_subjective.
  destruct (subj_texts st) as [|t ts]; [reflexivity|].
  pose proof (score_loop_untouched
                (get_embeddings_batch create (t :: ts) (batch_timeout (t :: ts)))
                0 _ _ k Hi Hn) as Hu.
  pose proof (score_loop_indexed
                (get_embeddings_batch create (t :: ts) (batch_timeout (t :: ts)))
                0 (subj_q_indices st) _ Hi) as Hi'.
  destruct (score_loop _ _ _ _) as [details [e|]]; [|exact Hu].
  cbn [fst] in *. rewrite fallback_loop_foldl.
  rewrite foldl_update_detail_lookup;
    auto using apply_fallback_index, apply_fallback_idem.
  by rewrite bool_decide_eq_false_2.
Qed.

(** X4: the detail of an objective question is final after the first
    pass: whatever the embedding provider does, the completed evaluation
    holds for every question of type mcq, multiple or choice the detail
    with the award [score * marks] and the feedback of the exact-match
    rule ("Answer missing.", "Correct" or "Incorrect") and without a
    similarity. *)
Theorem objective_details_are_final (env : Env) (data : Request)
    (store store' : list EvaluationRecord) (id : pystr) (e : EvaluationRecord) :
  evaluate_student env data store = (Success id e, store') ->
  exists paper answer_map,
    intake env data = inr (paper, answer_map)
    /\ forall (k : nat) q,
         p_questions paper !! k = Some q ->
         is_mcq_type (type_of q) = true ->
         exists d,
           details e !! k = Some d
           /\ (d_score_awarded d, d_feedback d)
              = (let r := mcq_score (default [] (answer_map !! (1 + Z.of_nat k)))
                                    (correct_answer_of q) in
                 (PrimFloat.mul r.1 (marks_of q), r.2))
           /\ d_feedback d ∈ [lit "Answer missing."; lit "Correct"; lit "Incorrect"]
           /\ d_similarity d = None.
Proof.
  intros (paper & answer_map & Hi & _ & -> & _)%evaluate_student_success.
  exists paper, answer_map. split; [exact Hi|].
  intros k q Hk Hq. cbn [build_evaluation details].
  set (st := first_pass answer_map empty_split 1 (p_questions paper)).
  assert (Hd : split_details st = details_from answer_map 1 (p_questions paper))
    by (unfold st; by rewrite first_pass_details).
  assert (Hx : subj_q_indices st = subjective_from 1 (p_questions paper))
    by (unfold st; by rewrite first_pass_indices).
  rewrite score_subjective_untouched.
  - rewrite Hd, details_from_lookup, Hk. cbn [fmap option_fmap option_map].
    eexists. split; [reflexivity|].
    unfold first_pass_detail.
    cbn [d_score_awarded d_feedback d_similarity]. rewrite Hq.
    split; [reflexivity|]. split; [|reflexivity].
    unfold mcq_score. repeat case_match; cbn [snd]; set_solver.
  - rewrite Hd. apply details_from_indexed.
  - rewrite Hx. intros (k' & q' & Hn & Hk' & Hq')%subjective_from_inv.
    assert (k' = k) as -> by lia. congruence.
Qed.

Lemma objective_details_are_final_witness :
  exists id e store',
    evaluate_student (env_with None (provider_same [3; 4]%float)) mixed_paper []
    = (Success id e, store')
    /\ exists d,
         details e !! 1%nat = Some d
         /\ (d_score_awarded d, d_feedback d) = (2%float, lit "Correct")
         /\ d_similarity d = None.
Proof.
  destruct (evaluate_student (env_with None (provider_same [3; 4]%float))
              mixed_paper []) as [r store'] eqn:E.
  assert (Hr : exists e, r = Success (lit "3f0c8a52-5d1b-4c1e-9a57-0b6a2f1f7e11") e).
  { vm_compute in E. injection E as <- _. eexists. reflexivity. }
  destruct Hr as [e ->].
  exists (lit "3f0c8a52-5d1b-4c1e-9a57-0b6a2f1f7e11"), e, store'.
  split; [reflexivity|].
  destruct (objective_details_are_final _ _ _ _ _ _ E)
    as (paper & answer_map & Hi & Hd).
  assert (Hp : paper = mixed_paper_paper /\ answer_map = mixed_paper_answers).
  { assert (Hi' : intake (env_with None (provider_same [3; 4]%float)) mixed_paper
                  = inr (mixed_paper_paper, mixed_paper_answers))
      by (vm_compute; reflexivity).
    rewrite Hi' in Hi. by injection Hi as <- <-. }
  destruct Hp as [-> ->].
  destruct (Hd 1%nat _ eq_refl) as (d & Hk & Hs & _ & Hsim); [vm_compute; reflexivity|].
  exists d. split; [exact Hk|]. split; [|exact Hsim].
  rewrite Hs. vm_compute. reflexivity.
Defined.

(** ** The texts of the embedding batch *)

Lemma first_pass_texts answer_map st idx questions :
  subj_texts (first_pass answer_map st idx questions)
  = subj_texts st ++ texts_from answer_map idx questions.
Proof.
  revert st idx. induction questions as [|q rest IH]; intros st idx; simpl.
  - by rewrite app_nil_r.
  - rewrite IH, first_pass_step_spec. cbn [subj_texts].
    rewrite <- app_assoc. by destruct (is_mcq_type (type_of q)).
Qed.

Lemma texts_from_length answer_map idx questions :
  length (texts_from answer_map idx questions)
  = (2 * length (subjective_from idx questions))%nat.
Proof.
  revert idx. induction questions as [|q rest IH]; intros idx; simpl; [done|].
  destruct (is_mcq_type (type_of q)); simpl; rewrite IH; lia.
Qed.

Lemma texts_from_aligned answer_map idx questions (i : nat) n :
  subjective_from idx questions !! i = Some n ->
  exists (k : nat) q,
    n = idx + Z.of_nat k /\ questions !! k = Some q
    /\ is_mcq_type (type_of q) = false
    /\ texts_from answer_map idx questions !! (2 * i)%nat
       = Some (default [] (answer_map !! n))
    /\ texts_from answer_map idx questions !! (2 * i + 1)%nat
       = Some (correct_answer_of q).
Proof.
  revert idx i. induction questions as [|q rest IH]; intros idx i;
    cbn [subjective_from texts_from]; [done|].
  destruct (is_mcq_type (type_of q)) eqn:E.
  - intros (k & q' & -> & Hk & Hq & H1 & H2)%IH.
    exists (S k), q'.
    replace (idx + Z.of_nat (S k)) with (idx + 1 + Z.of_nat k) by lia. done.
  - destruct i as [|i].
    + intros [= <-]. exists 0%nat, q. rewrite Z.add_0_r. done.
    + cbn [lookup list_lookup]. intros (k & q' & -> & Hk & Hq & H1 & H2)%IH.
      exists (S k), q'.
      replace (2 * S i)%nat with (S (S (2 * i))) by lia.
      replace (S (S (2 * i)) + 1)%nat with (S (S (2 * i + 1))) by lia.
      replace (idx + Z.of_nat (S k)) with (idx + 1 + Z.of_nat k) by lia. done.
Qed.

(** X5: the one embedding call of a request gets, for the [i]-th
    subjective question in paper order (counting from 0), the student
    answer at position [2i] and the reference answer at position [2i+1];
    it holds two texts per subjective question and none for an
    objective one, the queued indices are those of the questions that
    are not objective, without repetition, and the timeout of the call
    is [min(50, 20 + 4 * subjective questions)]. *)
Theorem batch_interleaves_answers (paper : Paper) (answer_map : gmap Z pystr) :
  length (batch_texts paper answer_map)
  = (2 * length (batch_indices paper answer_map))%nat
  /\ NoDup (batch_indices paper answer_map)
  /\ batch_timeout (batch_texts paper answer_map)
     = Z.min 50 (20 + 4 * Z.of_nat (length (batch_indices paper answer_map)))
  /\ (forall (k : nat) q,
      p_questions paper !! k = Some q ->
      (1 + Z.of_nat k ∈ batch_indices paper answer_map
       <-> is_mcq_type (type_of q) = false))
  /\ forall (i : nat) n,
       batch_indices paper answer_map !! i = Some n ->
       exists (k : nat) q,
         n = 1 + Z.of_nat k /\ p_questions paper !! k = Some q
         /\ batch_texts paper answer_map !! (2 * i)%nat
            = Some (default [] (answer_map !! n))
         /\ batch_texts paper answer_map !! (2 * i + 1)%nat
            = Some (correct_answer_of q).
Proof.
  unfold batch_texts, batch_indices, batch_timeout.
  rewrite first_pass_texts, first_pass_indices. cbn [empty_split subj_texts subj_q_indices app].
  split; [apply texts_from_length|]. split; [apply subjective_from_NoDup|].
  split; [rewrite texts_from_length; f_equal; lia|]. split.
  - intros k q Hk. split.
    + intros (k' & q' & Hn & Hk' & Hq')%subjective_from_inv.
      assert (k' = k) as -> by lia. congruence.
    + intros Hq. by apply (subjective_from_elem 1 _ k q).
  - intros i n Hi.
    destruct (texts_from_aligned answer_map 1 _ i n Hi)
      as (k & q & -> & Hk & _ & H1 & H2).
    exists k, q. done.
Qed.

Lemma batch_interleaves_answers_witness :
  batch_indices mixed_paper_paper mixed_paper_answers = [1; 3]
  /\ batch_texts mixed_paper_paper mixed_paper_answers
     = [lit "a running program"; lit "a process is a program in execution";
        lit "deadlock wait circularly";
        lit "deadlock when processes wait circularly"]
  /\ exists (k : nat) q,
       3 = 1 + Z.of_nat k /\ p_questions mixed_paper_paper !! k = Some q
       /\ batch_texts mixed_paper_paper mixed_paper_answers !! (2 * 1)%nat
          = Some (default [] (mixed_paper_answers !! 3))
       /\ batch_texts mixed_paper_paper mixed_paper_answers !! (2 * 1 + 1)%nat
          = Some (correct_answer_of q).
Proof.
  split; [vm_compute; reflexivity|]. split; [vm_compute; reflexivity|].
  apply (proj2 (proj2 (proj2 (proj2
           (batch_interleaves_answers mixed_paper_paper mixed_paper_answers))))
           1%nat 3).
  vm_compute. reflexivity.
Defined.

(** ** Scoring from a provider response *)









(** ** The handler of an exception in the scoring loop *)




(** ** When a request is evaluated *)

Lemma trunc_overflow f :
  trunc f = inl OverflowError <->
  f = PrimFloat.infinity \/ f = PrimFloat.neg_infinity.
Proof.
  split.
  - unfold trunc. destruct (Prim2SF f) as [s|s| |s m e] eqn:E; try discriminate.
    intros _. rewrite <- (SF2Prim_Prim2SF f), E. destruct s; auto.
  - intros [-> | ->]; reflexivity.
Qed.

Lemma int_of_str_error s e : int_of_str s = inl e -> e = ValueError.
Proof. unfold int_of_str. case_match; congruence. Qed.

Lemma py_int_overflow v :
  py_int v = inl OverflowError <->
  v = JFloat PrimFloat.infinity \/ v = JFloat PrimFloat.neg_infinity.
Proof.
  destruct v as [ |b|z|f|s| | ]; cbn [py_int];
    try (split; [discriminate|intros [|]; discriminate]).
  - rewrite trunc_overflow. split; intros [|]; simplify_eq; auto.
  - split; [|intros [|]; discriminate].
    intros H%int_of_str_error. discriminate.
Qed.

Lemma answer_map_step_fails answer_map a e :
  answer_map_step answer_map a = inl e <-> e = OverflowError /\ infinite_index a.
Proof.
  unfold answer_map_step, infinite_index.
  destruct (py_int (default (JInt 0) (a_q_index a))) as [[]|n] eqn:E.
  - split; [discriminate|]. intros [_ H].
    assert (Ho : py_int (default (JInt 0) (a_q_index a)) = inl OverflowError)
      by (apply py_int_overflow; destruct H as [-> | ->]; auto).
    congruence.
  - split; [discriminate|]. intros [_ H].
    assert (Ho : py_int (default (JInt 0) (a_q_index a)) = inl OverflowError)
      by (apply py_int_overflow; destruct H as [-> | ->]; auto).
    congruence.
  - apply py_int_overflow in E. split.
    + intros [= <-]. split; [reflexivity|].
      destruct (a_q_index a) as [v|]; simpl in E;
        destruct E as [E|E]; try discriminate; subst; auto.
    + intros [-> _]. reflexivity.
  - split; [destruct (0 <? n); discriminate|]. intros [_ H].
    assert (Ho : py_int (default (JInt 0) (a_q_index a)) = inl OverflowError)
      by (apply py_int_overflow; destruct H as [-> | ->]; auto).
    congruence.
Qed.

Lemma build_answer_map_fails answer_map answers e :
  build_answer_map answer_map answers = inl e <->
  e = OverflowError /\ Exists infinite_index answers.
Proof.
  revert answer_map. induction answers as [|a rest IH]; intros answer_map;
    cbn [build_answer_map].
  - split; [discriminate|]. intros [_ H]. inversion H.
  - destruct (answer_map_step answer_map a) as [e'|m'] eqn:E.
    + apply answer_map_step_fails in E as [-> Ha]. split.
      * intros [= <-]. split; [reflexivity|by left].
      * intros [-> _]. reflexivity.
    + rewrite IH. split.
      * intros [-> H]. split; [reflexivity|by right].
      * intros [-> H]. split; [reflexivity|].
        apply Exists_cons in H as [Ha|H]; [|exact H].
        assert (answer_map_step answer_map a = inl OverflowError)
          by (by apply answer_map_step_fails). congruence.
Qed.





(** ** The order of the answers *)

Lemma answer_for_Some n answers text :
  answer_for n answers = Some text ->
  exists a, a ∈ answers /\ index_of a = Some n
            /\ text = str_or_empty (a_student_answer a).
Proof.
  induction answers as [|a rest IH]; cbn [answer_for]; [discriminate|].
  destruct (answer_for n rest) as [t|].
  - intros [= <-]. destruct IH as (a' & Ha & Hi & Ht); [reflexivity|].
    exists a'. split; [by right|done].
  - case_bool_decide as Hd; [|discriminate].
    intros [= <-]. exists a. split; [by left|done].
Qed.

Lemma answer_for_unique n answers a :
  NoDup (omap index_of answers) -> a ∈ answers -> index_of a = Some n ->
  answer_for n answers = Some (str_or_empty (a_student_answer a)).
Proof.
  induction answers as [|a0 rest IH]; [by intros _ ?%elem_of_nil|].
  cbn [omap list_omap answer_for]. intros Hn Ha Hi.
  apply elem_of_cons in Ha as [->|Ha].
  - rewrite Hi in Hn. apply NoDup_cons in Hn as [Hnot _].
    destruct (answer_for n rest) as [t|] eqn:E.
    + exfalso. apply answer_for_Some in E as (a' & Ha' & Hi' & _).
      apply Hnot. apply list_elem_of_omap. eauto.
    + by rewrite bool_decide_eq_true_2.
  - assert (Hrest : NoDup (omap index_of rest)).
    { destruct (index_of a0); [by apply NoDup_cons in Hn as [_ ?]|done]. }
    by rewrite (IH Hrest Ha Hi).
Qed.

Lemma answer_for_permutation n answers answers' :
  answers ≡ₚ answers' -> NoDup (omap index_of answers) ->
  answer_for n answers = answer_for n answers'.
Proof.
  intros Hp Hn.
  assert (Hn' : NoDup (omap index_of answers')) by (by rewrite <- Hp).
  destruct (answer_for n answers) as [t|] eqn:E.
  - apply answer_for_Some in E as (a & Ha & Hi & ->).
    symmetry. apply answer_for_unique; [done|by rewrite <- Hp|done].
  - destruct (answer_for n answers') as [t'|] eqn:E'; [|reflexivity].
    apply answer_for_Some in E' as (a & Ha & Hi & ->).
    rewrite <- Hp in Ha. rewrite (answer_for_unique n answers a Hn Ha Hi) in E.
    discriminate.
Qed.

Lemma infinite_index_permutation answers answers' :
  answers ≡ₚ answers' ->
  Exists infinite_index answers -> Exists infinite_index answers'.
Proof.
  intros Hp (a & Ha & Hi)%Exists_exists. apply Exists_exists.
  exists a. by rewrite <- Hp.
Qed.

Lemma build_answer_map_permutation answers answers' :
  answers ≡ₚ answers' -> NoDup (omap index_of answers) ->
  build_answer_map ∅ answers = build_answer_map ∅ answers'.
Proof.
  intros Hp Hn.
  destruct (build_answer_map ∅ answers) as [e|m] eqn:E,
           (build_answer_map ∅ answers') as [e'|m'] eqn:E'.
  - apply build_answer_map_fails in E as [-> _], E' as [-> _]. reflexivity.
  - apply build_answer_map_fails in E as [_ H].
    apply (infinite_index_permutation _ _ Hp) in H.
    assert (build_answer_map ∅ answers' = inl OverflowError)
      by (by apply build_answer_map_fails). congruence.
  - apply build_answer_map_fails in E' as [_ H].
    symmetry in Hp. apply (infinite_index_permutation _ _ Hp) in H.
    assert (build_answer_map ∅ answers = inl OverflowError)
      by (by apply build_answer_map_fails). congruence.
  - f_equal. apply map_eq. intros n.
    rewrite (build_answer_map_lookup _ _ _ n E),
            (build_answer_map_lookup _ _ _ n E').
    by rewrite (answer_for_permutation n _ _ Hp Hn).
Qed.

(** X9: the submitted answers are an unordered set as long as no two of
    them are filed under the same question: submitting the same answers
    in another order gives the same response and the same stored
    document.  (With two answers for one question the later one wins,
    so their order matters.) *)
Theorem answer_order_is_irrelevant (env : Env) (data : Request)
    (store : list EvaluationRecord) (answers' : list Answer) :
  answers' ≡ₚ r_answers data ->
  NoDup (omap index_of (r_answers data)) ->
  evaluate_student env (with_answers answers' data) store
  = evaluate_student env data store.
Proof.
  intros Hp Hn. unfold evaluate_student, intake.
  change (fetch_paper env (with_answers answers' data)) with (fetch_paper env data).
  cbn [with_answers r_answers].
  destruct (fetch_paper env data) as [r|[paper|]]; try reflexivity.
  destruct (p_questions paper) as [|q qs]; [reflexivity|].
  pose proof (build_answer_map_permutation _ _ (symmetry Hp) Hn) as Hb.
  destruct (r_answers data) as [|a rest] eqn:Ea.
  - apply Permutation_nil_r in Hp as ->. reflexivity.
  - destruct answers' as [|a' rest'];
      [by apply Permutation_nil_l in Hp|].
    rewrite <- Hb.
    destruct (build_answer_map ∅ (a :: rest)); reflexivity.
Qed.

Lemma answer_order_is_irrelevant_witness :
  mixed_paper_reordered ≡ₚ r_answers mixed_paper
  /\ NoDup (omap index_of (r_answers mixed_paper))
  /\ evaluate_student (env_with None provider_down)
       (with_answers mixed_paper_reordered mixed_paper) []
     = evaluate_student (env_with None provider_down) mixed_paper [].
Proof.
  assert (Hp : mixed_paper_reordered ≡ₚ r_answers mixed_paper).
  { exact (Permutation_rev mixed_paper_reordered). }
  assert (Hn : NoDup (omap index_of (r_answers mixed_paper))).
  { vm_compute. repeat constructor; rewrite ?elem_of_cons, elem_of_nil; lia. }
  split; [exact Hp|]. split; [exact Hn|].
  exact (answer_order_is_irrelevant _ _ _ _ Hp Hn).
Defined.


(** ** Symmetry of the similarity *)





(** ** Blanks and case in the normalizer *)

Lemma extract_answer_letter_strip x :
  extract_answer_letter (strip x) = extract_answer_letter x.
Proof.
  destruct x as [|c r]; [reflexivity|].
  unfold extract_answer_letter. cbn [PyStr.truthy negb].
  destruct (strip (c :: r)) as [|c' r'] eqn:Es; [reflexivity|].
  assert (Hfix : strip (c' :: r') = c' :: r') by (rewrite <- Es; apply strip_idem).
  cbn [PyStr.truthy negb]. rewrite Hfix. reflexivity.
Qed.

Lemma lstrip_map_lower s :
  is_ascii s -> lstrip (List.map ascii_lower s) = List.map ascii_lower (lstrip s).
Proof.
  induction 1 as [|c s Hc _ IH]; [reflexivity|].
  cbn [List.map lstrip]. rewrite (isspace_ascii_lower c Hc).
  destruct (isspace c); [exact IH|reflexivity].
Qed.

Lemma strip_map_lower s :
  is_ascii s -> strip (List.map ascii_lower s) = List.map ascii_lower (strip s).
Proof.
  intros Ha. unfold strip.
  rewrite (lstrip_map_lower s Ha), <- map_rev.
  rewrite lstrip_map_lower by (apply Forall_rev; by apply lstrip_ascii).
  by rewrite map_rev.
Qed.

Lemma letter_or_text_map_lower a :
  is_ascii a -> letter_or_text (List.map ascii_lower a) = letter_or_text a.
Proof.
  intros Ha. destruct a as [|c r]; [reflexivity|].
  pose proof Ha as Ha'. apply Forall_cons in Ha' as [Hc Hr].
  cbn [List.map letter_or_text].
  rewrite (letter_ascii_lower c Hc), (ascii_lower_idem c Hc).
  destruct (is_ascii_letter c); [reflexivity|].
  cbn [List.map]. rewrite ?(ascii_lower_idem c Hc). f_equal.
  by apply map_ascii_lower_idem.
Qed.

Lemma letter_or_text_lower a :
  is_ascii a -> List.map ascii_lower (letter_or_text a) = letter_or_text a.
Proof.
  intros Ha. destruct a as [|c r]; [reflexivity|].
  pose proof Ha as Ha'. apply Forall_cons in Ha' as [Hc Hr].
  cbn [letter_or_text]. destruct (is_ascii_letter c).
  - cbn [List.map]. by rewrite (ascii_lower_idem c Hc).
  - by apply map_ascii_lower_idem.
Qed.

Lemma letter_or_text_ascii a : is_ascii a -> is_ascii (letter_or_text a).
Proof.
  intros Ha. destruct a as [|c r]; [constructor|].
  pose proof Ha as Ha'. apply Forall_cons in Ha' as [Hc Hr].
  cbn [letter_or_text]. destruct (is_ascii_letter c).
  - repeat constructor. by apply ascii_lower_bound.
  - by apply map_ascii_lower_ascii.
Qed.

(** X11: the normalizer ignores surrounding blanks, for every string, and
    on ASCII input it ignores case and returns a lower-case string:
    [normalize(x.strip()) = normalize(x)],
    [normalize(x.lower()) = normalize(x)] and
    [normalize(x).lower() = normalize(x)]. *)
Theorem extract_answer_letter_ignores_blanks_and_case :
  (forall x, extract_answer_letter (strip x) = extract_answer_letter x)
  /\ forall x, is_ascii x ->
       extract_answer_letter (lower x) = extract_answer_letter x
       /\ lower (extract_answer_letter x) = extract_answer_letter x.
Proof.
  split; [exact extract_answer_letter_strip|].
  intros x Ha. destruct x as [|c r] eqn:Ex; [split; reflexivity|].
  rewrite <- Ex in *. assert (Hx : x <> []) by (by subst).
  assert (Hl : List.map ascii_lower x <> []) by (by subst).
  split.
  - rewrite (lower_ascii x Ha).
    rewrite extract_answer_letter_ascii by (auto using map_ascii_lower_ascii).
    rewrite (extract_answer_letter_ascii x Ha Hx).
    rewrite (strip_map_lower x Ha).
    apply letter_or_text_map_lower. by apply strip_ascii.
  - rewrite (extract_answer_letter_ascii x Ha Hx).
    rewrite lower_ascii by (by apply letter_or_text_ascii, strip_ascii).
    apply letter_or_text_lower. by apply strip_ascii.
Qed.

Lemma extract_answer_letter_ignores_blanks_and_case_witness :
  is_ascii (lit "  C) Stack ")
  /\ extract_answer_letter (lower (lit "  C) Stack ")) = lit "c"
  /\ extract_answer_letter (lit "  C) Stack ") = lit "c"
  /\ extract_answer_letter (strip (lit "  C) Stack ")) = lit "c".
Proof.
  assert (Ha : is_ascii (lit "  C) Stack ")).
  { unfold is_ascii. cbv [lit list_ascii_of_string List.map]. repeat constructor. }
  destruct extract_answer_letter_ignores_blanks_and_case as [Hs Hc].
  destruct (Hc _ Ha) as [Hl _].
  assert (He : extract_answer_letter (lit "  C) Stack ") = lit "c")
    by (vm_compute; reflexivity).
  split; [exact Ha|]. split; [by rewrite Hl|]. split; [exact He|].
  by rewrite Hs.
Defined.

(** ** The leading letter in [evaluate_mock] *)

(** X12: in [evaluate_mock] an ASCII answer and an ASCII reference that
    both begin (after blanks) with a letter are compared by that letter
    alone, up to case: the question is awarded its marks when the two
    leading letters agree and 0 when they differ, whatever follows the
    letter ("Apple" is a correct answer to the reference "a) Stack"). *)
Theorem evaluate_mock_compares_leading_letters (student_answer correct_answer : pystr)
    (marks : num) (a b : char) (rest_a rest_b : pystr) :
  is_ascii student_answer -> is_ascii correct_answer ->
  strip student_answer = a :: rest_a -> strip correct_answer = b :: rest_b ->
  is_ascii_letter a = true -> is_ascii_letter b = true ->
  evaluate_mock_mcq student_answer correct_answer marks
  = if (ascii_lower a =? ascii_lower b)%N
    then (marks, 9989%N :: lit " Correct Answer", true)
    else (0%float, 10060%N :: lit " Incorrect Answer", false).
Proof.
  intros Hs Hc Es Ec La Lb.
  rewrite evaluate_mock_mcq_spec by (rewrite ?Es, ?Ec; done).
  rewrite !extract_answer_letter_ascii
    by (auto using strip_ascii; rewrite ?Es, ?Ec; done).
  rewrite !strip_idem, Es, Ec. cbn [letter_or_text]. rewrite La, Lb.
  unfold PyStr.eqb.
  destruct (N.eqb_spec (ascii_lower a) (ascii_lower b)) as [->|Hne].
  - by rewrite bool_decide_eq_true_2.
  - rewrite bool_decide_eq_false_2; [reflexivity|congruence].
Qed.

Lemma evaluate_mock_compares_leading_letters_witness :
  is_ascii (lit " Apple") /\ is_ascii (lit "a) Stack")
  /\ evaluate_mock_mcq (lit " Apple") (lit "a) Stack") 2%float
     = (2%float, 9989%N :: lit " Correct Answer", true).
Proof.
  assert (Hs : is_ascii (lit " Apple")).
  { unfold is_ascii. cbv [lit list_ascii_of_string List.map]. repeat constructor. }
  assert (Hc : is_ascii (lit "a) Stack")).
  { unfold is_ascii. cbv [lit list_ascii_of_string List.map]. repeat constructor. }
  split; [exact Hs|]. split; [exact Hc|].
  rewrite (evaluate_mock_compares_leading_letters (lit " Apple") (lit "a) Stack")
             2%float 65%N 97%N (lit "pple") (lit ") Stack") Hs Hc);
    reflexivity.
Defined.

(** ** The three objective rules *)

(** X13: the objective rules of the three evaluators are ordered.  The
    rule of [mock_test/eval_engine.py] awards exactly when that of
    [evaluate_student] in the unified service does (equality of the
    stripped, lower-cased answers); the rule of
    [smart_evaluator/evaluator.py] awards whenever they do, reports a
    missing answer exactly when the unified rule does, and its award
    does not change when answer and reference are swapped. *)
Theorem objective_rules_compared (student_ans correct_ans : pystr) :
  (EvalEngine.evaluate_mcq student_ans correct_ans).1
  = (mcq_score student_ans correct_ans).1
  /\ ((mcq_score student_ans correct_ans).1 = 1%float ->
      (SmartEvaluator.evaluate_mcq_answer student_ans correct_ans).1 = 1%float)
  /\ (SmartEvaluator.evaluate_mcq_answer student_ans correct_ans).1
     = (SmartEvaluator.evaluate_mcq_answer correct_ans student_ans).1
  /\ ((mcq_score student_ans correct_ans).2 = lit "Answer missing." <->
      (SmartEvaluator.evaluate_mcq_answer student_ans correct_ans).2
      = lit "Answer missing.").
Proof.
  unfold EvalEngine.evaluate_mcq, SmartEvaluator.evaluate_mcq_answer, mcq_score.
  destruct student_ans as [|s0 s], correct_ans as [|c0 c];
    cbn [PyStr.truthy negb orb]; try (repeat split; reflexivity || done).
  set (s' := lower (strip (s0 :: s))). set (c' := lower (strip (c0 :: c))).
  unfold PyStr.eqb.
  destruct (decide (s' = c')) as [->|Hne].
  - rewrite !bool_decide_eq_true_2 by done.
    destruct (length c' =? 1)%nat; repeat split; reflexivity || discriminate.
  - rewrite !bool_decide_eq_false_2 by congruence.
    destruct (length s' =? 1)%nat, (length c' =? 1)%nat,
             (is_prefix s' c'), (is_prefix c' s');
      repeat split; reflexivity || discriminate.
Qed.

Lemma objective_rules_compared_witness :
  (mcq_score (lit " b ") (lit "B")).1 = 1%float
  /\ (SmartEvaluator.evaluate_mcq_answer (lit " b ") (lit "B")).1 = 1%float
  /\ (mcq_score (lit "a) option text") (lit "A")).1 = 0%float
  /\ SmartEvaluator.evaluate_mcq_answer (lit "a) option text") (lit "A")
     = (1%float, lit "Correct (normalized)").
Proof.
  assert (H : (mcq_score (lit " b ") (lit "B")).1 = 1%float)
    by (vm_compute; reflexivity).
  split; [exact H|]. split.
  - exact (proj1 (proj2 (objective_rules_compared (lit " b ") (lit "B"))) H).
  - vm_compute. split; reflexivity.
Defined.

(** X14: in [smart_evaluator/evaluator.py] a non-empty answer that
    consists of blanks only is awarded the mark of a choice question
    against every non-empty reference: the stripped answer is the empty
    string, which every reference starts with. *)
Theorem smart_evaluator_awards_blank_answer (student_ans correct_ans : pystr) :
  student_ans <> [] -> strip student_ans = [] -> correct_ans <> [] ->
  (SmartEvaluator.evaluate_mcq_answer student_ans correct_ans).1 = 1%float
  /\ ((mcq_score student_ans correct_ans).1 = 1%float <-> strip correct_ans = []).
Proof.
  intros Hs Hb Hc.
  unfold SmartEvaluator.evaluate_mcq_answer, mcq_score.
  destruct student_ans as [|s0 s]; [done|]. destruct correct_ans as [|c0 c]; [done|].
  cbn [PyStr.truthy negb orb]. rewrite Hb.
  change (lower []) with (@nil char). cbn [length Nat.eqb andb is_prefix orb].
  unfold PyStr.eqb. split.
  - by case_bool_decide.
  - case_bool_decide as Hd.
    + split; [intros _|reflexivity]. symmetry in Hd. by apply lower_nil in Hd.
    + split; [discriminate|]. intros Hn. rewrite Hn in Hd. done.
Qed.

Lemma smart_evaluator_awards_blank_answer_witness :
  lit "  " <> [] /\ strip (lit "  ") = [] /\ lit "C" <> []
  /\ (SmartEvaluator.evaluate_mcq_answer (lit "  ") (lit "C")).1 = 1%float.
Proof.
  assert (H1 : lit "  " <> []) by (vm_compute; discriminate).
  assert (H2 : strip (lit "  ") = []) by (vm_compute; reflexivity).
  assert (H3 : lit "C" <> []) by (vm_compute; discriminate).
  split; [exact H1|]. split; [exact H2|]. split; [exact H3|].
  exact (proj1 (smart_evaluator_awards_blank_answer _ _ H1 H2 H3)).
Defined.


(** ** Free-text questions in [evaluate_mock] *)

Lemma tier_exclusions s :
  (lt s 0.85%float = true -> ge s 0.85%float = false)
  /\ (lt s 0.7%float = true -> ge s 0.7%float = false /\ ge s 0.85%float = false)
  /\ (lt s 0.55%float = true ->
      ge s 0.55%float = false /\ ge s 0.7%float = false /\ ge s 0.85%float = false).
Proof.
  assert (A : lt s 0.7%float = true -> lt s 0.85%float = true)
    by (intros H; apply (lt_le_trans s 0.7%float); [exact H|reflexivity]).
  assert (B : lt s 0.55%float = true -> lt s 0.7%float = true)
    by (intros H; apply (lt_le_trans s 0.55%float); [exact H|reflexivity]).
  split; [apply lt_not_ge|]. split.
  - intros H. split; apply lt_not_ge; auto.
  - intros H. repeat split; apply lt_not_ge; auto.
Qed.

(** X15: [evaluate_mock] scores a free-text question whose two answers are
    not blank as follows.  If the provider call raises, the score is 0
    with "Embedding generation failed."; if the response holds fewer than
    two vectors, indexing it raises an IndexError, which ends the whole
    request.  If both vectors are there and have similarity [s], the
    award is the marks for [s >= 0.85], [round(0.6*marks, 2)] for
    [0.70 <= s < 0.85] and 0 below 0.70: the same award as in
    [evaluate_student] except for [0.55 <= s < 0.70], where
    [evaluate_student] awards [round(0.3*marks, 2)]. *)
Theorem evaluate_mock_subjective_rubric (create : provider)
    (student_answer correct_answer : pystr) (marks : num) :
  strip student_answer <> [] -> strip correct_answer <> [] ->
  let texts := [strip student_answer; strip correct_answer] in
  let result := evaluate_mock_subjective create student_answer correct_answer marks in
  (create texts 40 = ProviderRaises ->
     result = inr (0%float, 0%float, lit "Embedding generation failed.", false))
  /\ (forall response,
      create texts 40 = ProviderReturns response ->
      (length response < 2)%nat -> (forall v, response !! 0%nat = Some v -> v <> []) ->
      result = inl IndexError)
  /\ (forall u v rest s,
      create texts 40 = ProviderReturns (u :: v :: rest) ->
      u <> [] -> v <> [] -> cosine_similarity u v = inr s ->
      exists score feedback is_correct,
        result = inr (score, round 3 s, feedback, is_correct)
        /\ (ge s 0.85%float = true -> score = marks /\ is_correct = true)
        /\ (ge s 0.7%float = true -> lt s 0.85%float = true ->
            score = round 2 (PrimFloat.mul 0.6%float marks) /\ is_correct = false)
        /\ (lt s 0.7%float = true -> score = 0%float /\ is_correct = false)
        /\ (ge s 0.7%float = true \/ lt s 0.55%float = true ->
            score = (similarity_score s marks).1)
        /\ (ge s 0.55%float = true -> lt s 0.7%float = true ->
            (similarity_score s marks).1 = round 2 (PrimFloat.mul 0.3%float marks))).
Proof.
  intros Hs Hc. cbv zeta. unfold evaluate_mock_subjective.
  destruct (strip student_answer) as [|s0 sr] eqn:Es; [done|].
  destruct (strip correct_answer) as [|c0 cr] eqn:Ec; [done|].
  cbn [PyStr.truthy negb orb]. unfold get_embeddings_batch.
  split; [|split].
  - intros ->. reflexivity.
  - intros response -> Hl Hne.
    destruct response as [|u [|v rest]]; cbn in Hl; try lia; [reflexivity|].
    cbn [List.map lookup list_lookup]. destruct u as [|x u]; [|reflexivity].
    by specialize (Hne [] eq_refl).
  - intros u v rest s -> Hu Hv Hcos.
    cbn [List.map lookup list_lookup].
    destruct u as [|x u]; [done|]. destruct v as [|y v]; [done|].
    cbn [embedding_truthy negb default from_option id]. rewrite Hcos.
    destruct (similarity_score_tiers s marks) as (T1 & T2 & T3 & T4).
    destruct (tier_exclusions s) as (X85 & X7 & X55).
    rewrite (mul_comm marks 0.6%float).
    destruct (ge s 0.85%float) eqn:H85; [|destruct (ge s 0.7%float) eqn:H7];
      eexists _, _, _; (split; [reflexivity|]).
    + split; [done|]. split; [intros _ H; by apply X85 in H|].
      split; [intros H; apply X7 in H as [_ H]; discriminate|].
      split; [intros _; by rewrite T1|]. intros ? ?. by rewrite T3.
    + split; [discriminate|]. split; [done|].
      split; [intros H; apply X7 in H as [H _]; discriminate|].
      split; [|intros ? ?; by rewrite T3].
      intros [_|H]; [|apply X55 in H as (_ & H & _); discriminate].
      unfold similarity_score. rewrite H85, H7. cbn [fst].
      by rewrite (mul_comm marks 0.6%float).
    + split; [discriminate|]. split; [discriminate|]. split; [done|].
      split; [|intros ? ?; by rewrite T3].
      intros [?|H]; [discriminate|]. by rewrite T4.
Qed.

Lemma evaluate_mock_subjective_rubric_witness :
  strip (lit " a stack ") <> [] /\ strip (lit "a queue") <> []
  /\ evaluate_mock_subjective provider_down (lit " a stack ") (lit "a queue") 5%float
     = inr (0%float, 0%float, lit "Embedding generation failed.", false)
  /\ evaluate_mock_subjective provider_first_only (lit " a stack ") (lit "a queue")
       5%float = inl IndexError
  /\ exists feedback,
       evaluate_mock_subjective (provider_same [3; 4]%float) (lit " a stack ")
         (lit "a queue") 5%float
       = inr (5%float, 1%float, feedback, true).
Proof.
  assert (H1 : strip (lit " a stack ") <> []) by (vm_compute; discriminate).
  assert (H2 : strip (lit "a queue") <> []) by (vm_compute; discriminate).
  split; [exact H1|]. split; [exact H2|].
  split; [|split].
  - apply (proj1 (evaluate_mock_subjective_rubric provider_down _ _ 5%float H1 H2)).
    reflexivity.
  - apply (proj1 (proj2 (evaluate_mock_subjective_rubric provider_first_only
                           _ _ 5%float H1 H2)) [[3; 4]%float]).
    + reflexivity.
    + simpl. lia.
    + intros v [= <-]. discriminate.
  - destruct (proj2 (proj2 (evaluate_mock_subjective_rubric
                              (provider_same [3; 4]%float) _ _ 5%float H1 H2))
                [3; 4]%float [3; 4]%float [] 1%float)
      as (score & feedback & is_correct & Hr & T1 & _).
    + reflexivity.
    + discriminate.
    + discriminate.
    + vm_compute. reflexivity.
    + destruct T1 as [-> ->]; [reflexivity|].
      exists feedback. rewrite Hr. reflexivity.
Defined.
